(** * api_solver.py: the asynchronous job dispatcher of the reCAPTCHA solver server

    A shallow embedding of [ReCaptchaAPIServer] (src/api_solver.py): the two
    HTTP handlers [process_recaptcha] and [get_result], the worker coroutine
    [_solve_recaptcha] cut at its [await] points, the browser pool (an
    [asyncio.Queue]), the result dictionary [self.results] and the file
    results.json.

    The event loop is cooperative: code between two [await]s runs without
    interleaving.  A state of the server is therefore the shared objects plus,
    for every spawned task, the [await] it is suspended at; one transition is
    either an HTTP request handled to completion or one task resumed up to its
    next [await].  Everything the outside world decides (what the proxy file
    holds, what [random.choice] draws, whether a browser call returns or
    raises, what [time.time()] reads, the token) arrives with the event. *)

From Stdlib Require Import Ascii QArith_base.
From stdpp Require Import gmap strings list fin_maps.

Close Scope Q_scope.

Open Scope string_scope.
Open Scope Z_scope.

(** ** Python string primitives used by the source *)

Module Py.

(** Truth value of [request.args.get(k)]: [None] and [""] are falsy. *)
Definition truthy (o : option string) : bool :=
  match o with
  | Some (String _ _) => true
  | _ => false
  end.

(** [needle in hay] for two [str]: substring test. *)
Fixpoint str_contains (needle hay : string) : bool :=
  String.prefix needle hay ||
  match hay with
  | EmptyString => false
  | String _ rest => str_contains needle rest
  end.

(** [s.endswith(suffix)] *)
Fixpoint endswith (s suffix : string) : bool :=
  String.eqb s suffix ||
  match s with
  | EmptyString => false
  | String _ rest => endswith rest suffix
  end.

(** [str.isspace] on one character.  A character is a code point below 256
    ([ascii]); among those Python counts as whitespace: tab, line feed,
    vertical tab, form feed, carriage return (9-13), the four separators
    0x1c-0x1f (28-31), the space (32), next line (133) and no-break space
    (160). *)
Definition isspace (c : ascii) : bool :=
  let n := nat_of_ascii c in
  ((9 <=? n) && (n <=? 13) || (28 <=? n) && (n <=? 32)
   || (n =? 133) || (n =? 160))%nat.

Fixpoint lstrip (s : string) : string :=
  match s with
  | String c rest => if isspace c then lstrip rest else s
  | EmptyString => EmptyString
  end.

Fixpoint rstrip (s : string) : string :=
  match s with
  | String c rest =>
      match rstrip rest with
      | EmptyString => if isspace c then EmptyString else String c EmptyString
      | rest' => String c rest'
      end
  | EmptyString => EmptyString
  end.

(** [s.strip()] *)
Definition strip (s : string) : string := rstrip (lstrip s).

(** [s.split(sep)] for a one-character separator: never the empty list,
    one more field than there are separators. *)
Fixpoint split (sep : ascii) (s : string) : list string :=
  match s with
  | EmptyString => [EmptyString]
  | String c rest =>
      if Ascii.eqb c sep then EmptyString :: split sep rest
      else match split sep rest with
           | field :: fields => String c field :: fields
           | [] => [String c EmptyString]
           end
  end.

(** [random.choice(seq)] is [seq[self._randbelow(len(seq))]]; the draw is
    the environment's and is reduced below [len(seq)] here.  Python raises
    IndexError on an empty sequence, which the source guards against. *)
Definition random_choice {A} (rnd : nat) (seq : list A) : option A :=
  seq !! (rnd `mod` length seq)%nat.

End Py.

(** ** Stored outcomes and HTTP responses *)

(** A field of an outcome dictionary: the token or sentinel, or the elapsed
    time.  Clock readings are whole milliseconds, the resolution that
    [round(_, 3)] keeps, so [JNum 2500] stands for [2.5]. *)
Inductive jvalue :=
  | JStr (s : string)
  | JNum (millis : Z).

(** A value of [self.results]: the bare string written at admission, or a
    dictionary written by the worker (insertion-ordered key/value pairs). *)
Inductive result :=
  | RString (s : string)
  | RDict (items : list (string * jvalue)).

Definition CAPTCHA_NOT_READY : result := RString "CAPTCHA_NOT_READY".

(** [{"value": token, "elapsed_time": elapsed_time}], line 195. *)
Definition solved_entry (token : string) (elapsed_time : Z) : result :=
  RDict [("value", JStr token); ("elapsed_time", JNum elapsed_time)].

(** [{"value": "CAPTCHA_FAIL", "elapsed_time": elapsed_time}], line 199. *)
Definition failed_entry (elapsed_time : Z) : result :=
  RDict [("value", JStr "CAPTCHA_FAIL"); ("elapsed_time", JNum elapsed_time)].

(** Python's [needle in r]: substring test on a [str], key membership on a
    [dict]. *)
Definition py_in (needle : string) (r : result) : bool :=
  match r with
  | RString s => Py.str_contains needle s
  | RDict items => bool_decide (needle ∈ items.*1)
  end.

Inductive body :=
  | ErrorJson (status error : string)  (* jsonify({"status": .., "error": ..}) *)
  | TaskJson (task_id : string)        (* jsonify({"task_id": ..}) *)
  | Stored (r : result).               (* the stored value itself *)

Definition response : Type := body * Z.

(** [request.args]: the query parameters in order; [get] returns the first
    value under the key, [None] when there is none. *)
Definition query : Type := list (string * string).

Fixpoint args_get (key : string) (args : query) : option string :=
  match args with
  | [] => None
  | (k, v) :: rest => if String.eqb k key then Some v else args_get key rest
  end.

(** ** [get_result], lines 240-253 *)

Definition invalid_task_id : response :=
  (ErrorJson "error" "Invalid task ID/Request parameter", 400).

Definition get_result (results : gmap string result) (args : query) : response :=
  let task_id := args_get "id" args in
  if negb (Py.truthy task_id) then invalid_task_id
  else match task_id ≫= (results !!.) with
       | None => invalid_task_id
       | Some result =>
           let status_code := if py_in "CAPTCHA_FAIL" result then 422 else 200 in
           (Stored result, status_code)
       end.

(** ** Exceptions and outcomes of external calls *)

Inductive exn :=
  | ValueError (msg : string)
  | OSError (msg : string)         (* [open] on the proxy file *)
  | BrowserError (msg : string).   (* raised by a Playwright or solver call *)

Inductive outcome (A : Type) :=
  | Returns (a : A)
  | Raises (e : exn).
Arguments Returns {A} a.
Arguments Raises {A} e.

(** ** Proxy selection, lines 153-171 *)

(** The [proxy=] argument of [browser.new_context]. *)
Record proxy_settings := {
  proxy_server : string;
  proxy_username : option string;
  proxy_password : option string;
}.

(** [[line.strip() for line in proxy_file if line.strip()]] *)
Definition load_proxies (proxy_file : list string) : list string :=
  filter (λ line, line ≠ "") (Py.strip <$> proxy_file).

(** [random.choice(proxies) if proxies else None] *)
Definition select_proxy (proxy_file : list string) (rnd : nat) : option string :=
  let proxies := load_proxies proxy_file in
  match proxies with
  | [] => None
  | _ => Py.random_choice rnd proxies
  end.

(** Lines 162-169: the branch on [len(parts)]. *)
Definition proxy_config (proxy : string) : outcome proxy_settings :=
  let parts := Py.split ":" proxy in
  match parts with
  | [_; _; _] =>
      Returns {| proxy_server := proxy;
                 proxy_username := None; proxy_password := None |}
  | [proxy_scheme; proxy_ip; proxy_port; proxy_user; proxy_pass] =>
      Returns {| proxy_server := proxy_scheme +:+ "://" +:+ proxy_ip +:+ ":" +:+ proxy_port;
                 proxy_username := Some proxy_user;
                 proxy_password := Some proxy_pass |}
  | _ => Raises (ValueError "Invalid proxy format")
  end.

(** Lines 153-173 up to the call of [browser.new_context]: the arguments of
    that call, or the exception raised before it.  [proxy_file] is [None]
    when [open] fails. *)
Definition context_request (proxy_support : bool)
    (proxy_file : option (list string)) (rnd : nat)
  : outcome (option proxy_settings) :=
  if proxy_support then
    match proxy_file with
    | None => Raises (OSError "proxies.txt")
    | Some lines =>
        let proxy := select_proxy lines rnd in
        if Py.truthy proxy then
          match proxy_config (default "" proxy) with
          | Returns cfg => Returns (Some cfg)
          | Raises e => Raises e
          end
        else Returns None
    end
  else Returns None.

(** ** Tasks: [_solve_recaptcha] suspended at an [await] *)

(** A pool element [(index, browser)]; the browser object is created once,
    paired with its index, and is identified with it. *)
Definition handle : Type := nat.

Inductive phase :=
  | AwaitGet                                   (* line 151 *)
  | AwaitNewContext (h : handle) (proxy : option proxy_settings)
                                               (* lines 164, 167, 171, 173 *)
  | AwaitNewPage (h : handle)                  (* line 175 *)
  | AwaitRoute (h : handle) (start_time : Z) (url_with_slash : string)
                                               (* line 188 *)
  | AwaitGoto (h : handle) (start_time : Z) (url_with_slash : string)
                                               (* line 189 *)
  | AwaitSolve (h : handle) (start_time elapsed_time : Z)
                                               (* line 193 *)
  | AwaitClose (h : handle)                    (* line 205 *)
  | Finished                                   (* after line 206 *)
  | SetupRaised (e : exn) (h : handle)         (* raised in lines 153-175 *)
  | CloseRaised (e : exn) (h : handle).        (* raised by line 205 *)

(** The arguments of one call of [_solve_recaptcha] and where it stands. *)
Record task := {
  task_id : string;
  url : string;
  sitekey : string;
  action : option string;
  min_score : option string;
  invisible : option string;
  enterprise : option string;
  data_s : option string;
  at_ : phase;
}.

Definition set_phase (p : phase) (t : task) : task :=
  {| task_id := task_id t; url := url t; sitekey := sitekey t;
     action := action t; min_score := min_score t;
     invisible := invisible t; enterprise := enterprise t;
     data_s := data_s t; at_ := p |}.

(** ** The server object *)

(** results.json: what [open] and [json.load] would find. *)
Inductive results_file :=
  | NoFile                                  (* [os.path.exists] is false *)
  | Unreadable                              (* empty or partial: JSONDecodeError *)
  | Parsed (content : gmap string result).

(** How the write of lines 99-100 ends: it completes; [open] raises IOError,
    before anything is touched; or [open] has created or truncated the file
    and [json.dump] raises IOError before the text is complete. *)
Inductive write_outcome :=
  | Written
  | OpenRaises
  | DumpRaises.

Record api_server := {
  proxy_support : bool;
  results : gmap string result;               (* self.results *)
  browser_pool : list handle;                 (* asyncio.Queue, head first *)
  tasks : list task;                          (* asyncio.create_task *)
  results_json : results_file;                (* the file results.json *)
}.

Definition with_results (r : gmap string result) (s : api_server) :=
  {| proxy_support := proxy_support s; results := r;
     browser_pool := browser_pool s; tasks := tasks s;
     results_json := results_json s |}.

Definition with_pool (p : list handle) (s : api_server) :=
  {| proxy_support := proxy_support s; results := results s;
     browser_pool := p; tasks := tasks s;
     results_json := results_json s |}.

Definition with_tasks (ts : list task) (s : api_server) :=
  {| proxy_support := proxy_support s; results := results s;
     browser_pool := browser_pool s; tasks := ts;
     results_json := results_json s |}.

Definition with_file (f : results_file) (s : api_server) :=
  {| proxy_support := proxy_support s; results := results s;
     browser_pool := browser_pool s; tasks := tasks s;
     results_json := f |}.

(** [_initialize_browser], lines 128-139: [thread_count] browsers, queued as
    [(1, _)], ..., [(thread_count, _)]. *)
Definition _initialize_browser (thread_count : nat) : list handle :=
  S <$> seq 0 thread_count.

(** The server once [__init__] and [_startup] have run; [loaded] is what
    [_load_results] returned. *)
Definition startup (thread_count : nat) (proxy : bool)
    (loaded : gmap string result) : api_server :=
  {| proxy_support := proxy; results := loaded;
     browser_pool := _initialize_browser thread_count;
     tasks := []; results_json := NoFile |}.

(** [_save_results], lines 96-102: the whole dictionary replaces the file.
    An IOError is logged and swallowed: raised by [open], it leaves the
    file as it was; raised by [json.dump], it leaves the file [open] has
    truncated, empty or with a part of the text. *)
Definition _save_results (disk : write_outcome) (s : api_server) : api_server :=
  match disk with
  | Written => with_file (Parsed (results s)) s
  | OpenRaises => s
  | DumpRaises => with_file Unreadable s
  end.

(** ** [process_recaptcha], lines 208-238 *)

Definition missing_parameters : response :=
  (ErrorJson "error" "Both 'url' and 'sitekey' are required", 400).

(** [uuid4] is the string [str(uuid.uuid4())] returns; [create_task] is
    [None] when [asyncio.create_task] returns and the exception when it
    raises. *)
Definition process_recaptcha (s : api_server) (args : query)
    (uuid4 : string) (create_task : option string) : api_server * response :=
  let url := args_get "url" args in
  let sitekey := args_get "sitekey" args in
  let action := args_get "action" args in
  let min_score := args_get "min_score" args in
  let invisible := args_get "invisible" args in
  let enterprise := args_get "enterprise" args in
  let data_s := args_get "data-s" args in
  if negb (Py.truthy url) || negb (Py.truthy sitekey) then
    (s, missing_parameters)
  else
    let task_id := uuid4 in
    let s := with_results (<[task_id := CAPTCHA_NOT_READY]> (results s)) s in
    match create_task with
    | None =>
        let t := {| task_id := task_id; url := default "" url;
                    sitekey := default "" sitekey;
                    action := action; min_score := min_score;
                    invisible := invisible; enterprise := enterprise;
                    data_s := data_s; at_ := AwaitGet |} in
        (with_tasks (tasks s ++ [t])%list s, (TaskJson task_id, 202))
    | Some message => (s, (ErrorJson "error" message, 500))
    end.

(** ** [_solve_recaptcha], lines 147-206, one resumption at a time *)

(** What the event loop hands a task when it resumes it. *)
Inductive wake :=
  | WGet (proxy_file : option (list string)) (rnd : nat)
  | WNewContext (r : outcome unit)
  | WNewPage (r : outcome unit) (now : Z)
  | WRoute (r : outcome unit) (now : Z)
  | WGoto (r : outcome unit) (now : Z)
  | WSolve (r : outcome string) (now : Z) (disk : write_outcome)
  | WClose (r : outcome unit).

(** Lines 197-205: the [except] clause, then the [finally] clause up to
    [await context.close()].  [now] is [time.time()] at line 198. *)
Definition except_clause (t : task) (h : handle) (start_time now : Z)
    (s : api_server) : api_server * phase :=
  let elapsed_time := now - start_time in
  (with_results (<[task_id t := failed_entry elapsed_time]> (results s)) s,
   AwaitClose h).

(** Resume task [t] with [w]; [None] when [t] is not waiting for [w], or
    waits on an empty queue. *)
Definition resume (s : api_server) (t : task) (w : wake)
  : option (api_server * phase) :=
  match at_ t, w with
  | AwaitGet, WGet proxy_file rnd =>
      match browser_pool s with
      | [] => None
      | h :: rest =>
          let s := with_pool rest s in
          match context_request (proxy_support s) proxy_file rnd with
          | Returns proxy => Some (s, AwaitNewContext h proxy)
          | Raises e => Some (s, SetupRaised e h)
          end
      end
  | AwaitNewContext h _, WNewContext r =>
      match r with
      | Returns _ => Some (s, AwaitNewPage h)
      | Raises e => Some (s, SetupRaised e h)
      end
  | AwaitNewPage h, WNewPage r now =>
      match r with
      | Returns _ =>
          let start_time := now in
          let url_with_slash :=
            if negb (Py.endswith (url t) "/") then url t +:+ "/" else url t in
          Some (s, AwaitRoute h start_time url_with_slash)
      | Raises e => Some (s, SetupRaised e h)
      end
  | AwaitRoute h start_time url_with_slash, WRoute r now =>
      match r with
      | Returns _ => Some (s, AwaitGoto h start_time url_with_slash)
      | Raises _ => Some (except_clause t h start_time now s)
      end
  | AwaitGoto h start_time _, WGoto r now =>
      match r with
      | Returns _ =>
          let elapsed_time := now - start_time in
          Some (s, AwaitSolve h start_time elapsed_time)
      | Raises _ => Some (except_clause t h start_time now s)
      end
  | AwaitSolve h start_time elapsed_time, WSolve r now disk =>
      match r with
      | Returns token =>
          let s := with_results
                     (<[task_id t := solved_entry token elapsed_time]> (results s)) s in
          Some (_save_results disk s, AwaitClose h)
      | Raises _ => Some (except_clause t h start_time now s)
      end
  | AwaitClose h, WClose r =>
      match r with
      | Returns _ => Some (with_pool (browser_pool s ++ [h])%list s, Finished)
      | Raises e => Some (s, CloseRaised e h)
      end
  | _, _ => None
  end.

(** ** The event loop *)

Inductive event :=
  | GetRecaptcha (args : query) (uuid4 : string) (create_task : option string)
  | GetResult (args : query)
  | Resume (i : nat) (w : wake).

(** One transition, with the HTTP response it produces, if any. *)
Definition step (s : api_server) (ev : event)
  : option (api_server * option response) :=
  match ev with
  | GetRecaptcha args uuid4 create_task =>
      let '(s', resp) := process_recaptcha s args uuid4 create_task in
      Some (s', Some resp)
  | GetResult args => Some (s, Some (get_result (results s) args))
  | Resume i w =>
      t ← tasks s !! i;
      '(s', p) ← resume s t w;
      Some (with_tasks (<[i := set_phase p t]> (tasks s')) s', None)
  end.

(** A run: the final state and the responses in order. *)
Fixpoint run (s : api_server) (evs : list event)
  : option (api_server * list response) :=
  match evs with
  | [] => Some (s, [])
  | ev :: evs =>
      '(s', out) ← step s ev;
      '(s'', outs) ← run s' evs;
      Some (s'', (from_option (λ r, [r]) [] out ++ outs)%list)
  end.

(** ** Observations on states, used to state the properties below *)

(** [sep.join(fields)], the inverse of [split]. *)
Fixpoint join (sep : ascii) (fields : list string) : string :=
  match fields with
  | [] => ""
  | [f] => f
  | f :: fs => f +:+ String sep (join sep fs)
  end.


(** The handle a task has taken from the queue and not put back. *)
Definition holder (p : phase) : option handle :=
  match p with
  | AwaitGet | Finished => None
  | AwaitNewContext h _ | AwaitNewPage h | AwaitRoute h _ _ | AwaitGoto h _ _
  | AwaitSolve h _ _ | AwaitClose h | SetupRaised _ h | CloseRaised _ h => Some h
  end.

(** The handle of a task that is still running. *)
Definition in_flight (p : phase) : option handle :=
  match p with
  | AwaitNewContext h _ | AwaitNewPage h | AwaitRoute h _ _ | AwaitGoto h _ _
  | AwaitSolve h _ _ | AwaitClose h => Some h
  | AwaitGet | Finished | SetupRaised _ _ | CloseRaised _ _ => None
  end.

(** The handle of a task that ended with an exception. *)
Definition lost (p : phase) : option handle :=
  match p with
  | SetupRaised _ h | CloseRaised _ h => Some h
  | _ => None
  end.

Definition owners (s : api_server) : list handle :=
  omap (holder ∘ at_) (tasks s).

Definition checked_out (s : api_server) : list handle :=
  omap (in_flight ∘ at_) (tasks s).

Definition lost_handles (s : api_server) : list handle :=
  omap (lost ∘ at_) (tasks s).


(** A task that has not yet written an outcome under its identifier: it is
    before line 195 (or 199), or it raised in lines 153-175. *)
Definition unwritten (p : phase) : bool :=
  match p with
  | AwaitGet | AwaitNewContext _ _ | AwaitNewPage _ | AwaitRoute _ _ _
  | AwaitGoto _ _ _ | AwaitSolve _ _ _ | SetupRaised _ _ => true
  | AwaitClose _ | Finished | CloseRaised _ _ => false
  end.

(** What [uuid.uuid4] is relied on for: the identifier of an admission is a
    non-empty string that is not yet a key of [self.results]. *)
Definition fresh_uuid (s : api_server) (ev : event) : bool :=
  match ev with
  | GetRecaptcha _ uuid4 _ =>
      negb (String.eqb uuid4 "") && negb (bool_decide (is_Some (results s !! uuid4)))
  | _ => true
  end.

Fixpoint fresh_uuids (s : api_server) (evs : list event) : bool :=
  match evs with
  | [] => true
  | ev :: evs =>
      fresh_uuid s ev &&
      match step s ev with
      | Some (s', _) => fresh_uuids s' evs
      | None => true
      end
  end.

(** Two tasks, servers or events that agree on everything but the optional
    request parameters [action], [min_score], [invisible], [enterprise] and
    [data-s]. *)
Definition task_sim (t1 t2 : task) : Prop :=
  task_id t1 = task_id t2 ∧ url t1 = url t2 ∧ sitekey t1 = sitekey t2
  ∧ at_ t1 = at_ t2.

Definition server_sim (s1 s2 : api_server) : Prop :=
  proxy_support s1 = proxy_support s2
  ∧ results s1 = results s2
  ∧ browser_pool s1 = browser_pool s2
  ∧ results_json s1 = results_json s2
  ∧ Forall2 task_sim (tasks s1) (tasks s2).

Definition event_sim (e1 e2 : event) : Prop :=
  match e1, e2 with
  | GetRecaptcha args1 uuid1 ct1, GetRecaptcha args2 uuid2 ct2 =>
      args_get "url" args1 = args_get "url" args2
      ∧ args_get "sitekey" args1 = args_get "sitekey" args2
      ∧ uuid1 = uuid2 ∧ ct1 = ct2
  | _, _ => e1 = e2
  end.

(** Scenarios. *)
Definition example_request : query :=
  [("url", "https://example.test"); ("sitekey", "abc123")].

(** One job on a one-browser server with proxies enabled draws the
    two-field line [10.0.0.1:8080]. *)
Definition malformed_proxy_run : list event :=
  [GetRecaptcha example_request "T" None;
   Resume 0 (WGet (Some ["10.0.0.1:8080"]) 0)].

(** Two jobs on a one-browser server: the first has reached [page.route],
    the second waits for the browser. *)
Definition two_jobs_run : list event :=
  [GetRecaptcha example_request "T" None;
   Resume 0 (WGet None 0);
   Resume 0 (WNewContext (Returns ()));
   GetRecaptcha example_request "U" None;
   Resume 0 (WNewPage (Returns ()) 0)].

(** What holds of every spawned task while identifiers are fresh: they are
    distinct and non-empty, each has an entry, and the entry of a task that
    has written nothing is the pending string. *)
Definition pending_inv (s : api_server) : Prop :=
  NoDup (task_id <$> tasks s)
  ∧ ∀ t, t ∈ tasks s →
      task_id t ≠ "" ∧ is_Some (results s !! task_id t)
      ∧ (unwritten (at_ t) = true → results s !! task_id t = Some CAPTCHA_NOT_READY).

(** ** Startup: [main], [_startup], [_initialize_browser], [_load_results] *)

(** Lines 319-330: what [main] does with the parsed arguments. *)
Inductive main_outcome :=
  | UnknownBrowserType   (* line 326 *)
  | UserAgentRequired    (* line 328 *)
  | RunApp.              (* lines 330-331 *)

Definition browser_types : list string :=
  ["chromium"; "chrome"; "msedge"; "camoufox"].

Definition main (browser_type : string) (headless : bool)
    (useragent : option string) : main_outcome :=
  if negb (bool_decide (browser_type ∈ browser_types)) then UnknownBrowserType
  else if headless && negb (bool_decide (is_Some useragent))
          && negb (Py.str_contains "camoufox" browser_type)
       then UserAgentRequired
       else RunApp.

(** Why [_startup] can fail: a launch raised, or line 139 read the variable
    [browser] that neither branch of lines 129-137 had bound. *)
Inductive startup_failure :=
  | LaunchRaised (e : exn)
  | UnboundLocalError (name : string).

(** Lines 128-139, iterations [i], [i+1], ... ([count] of them); [launch i]
    is what the launch of iteration [i] does. *)
Fixpoint launch_browsers (browser_type : string) (launch : nat → outcome unit)
    (i count : nat) : startup_failure + list handle :=
  match count with
  | O => inr []
  | S count' =>
      if bool_decide (browser_type ∈ ["chromium"; "chrome"; "msedge"])
         || String.eqb browser_type "camoufox"
      then match launch i with
           | Returns _ =>
               match launch_browsers browser_type launch (S i) count' with
               | inr pool => inr (S i :: pool)
               | inl failure => inl failure
               end
           | Raises e => inl (LaunchRaised e)
           end
      else inl (UnboundLocalError "browser")
  end.

(** [_startup] with [_initialize_browser], lines 111-144: [playwright_start]
    is what [async_playwright().start()] does; [range(thread_count)] is
    empty for a [thread_count] that is not positive.  [_startup] re-raises
    whatever [_initialize_browser] raises. *)
Definition _startup (browser_type : string) (thread_count : Z)
    (playwright_start : outcome unit) (launch : nat → outcome unit)
  : startup_failure + list handle :=
  if bool_decide (browser_type ∈ ["chromium"; "chrome"; "msedge"]) then
    match playwright_start with
    | Returns _ => launch_browsers browser_type launch 0 (Z.to_nat thread_count)
    | Raises e => inl (LaunchRaised e)
    end
  else launch_browsers browser_type launch 0 (Z.to_nat thread_count).

(** [_load_results], lines 85-94. *)
Definition _load_results (f : results_file) : gmap string result :=
  match f with
  | Parsed content => content
  | NoFile | Unreadable => ∅
  end.

(** results.json as the server leaves it. *)
Definition results_file_of (s : api_server) : results_file := results_json s.

(** The event after which line 196 writes the file: a solver call that
    returns, with a write that does not fail. *)
Definition saving_event (ev : event) : bool :=
  match ev with
  | Resume _ (WSolve (Returns _) _ Written) => true
  | _ => false
  end.

(** The event after which line 196 calls [_save_results] at all: a solver
    call that returns. *)
Definition solve_returns (ev : event) : bool :=
  match ev with
  | Resume _ (WSolve (Returns _) _ _) => true
  | _ => false
  end.

(** Number of occurrences of a character. *)
Fixpoint count_char (c : ascii) (s : string) : nat :=
  match s with
  | EmptyString => O
  | String c' rest => (if Ascii.eqb c' c then 1 else 0) + count_char c rest
  end.

(** Lines 183: [url + "/" if not url.endswith("/") else url]. *)
Definition url_with_slash (url : string) : string :=
  if negb (Py.endswith url "/") then url +:+ "/" else url.

(** The URL a suspended worker has passed to [page.route] (line 188) or to
    [page.goto] (line 189). *)
Definition staged_url (p : phase) : option string :=
  match p with
  | AwaitRoute _ _ url_with_slash | AwaitGoto _ _ url_with_slash =>
      Some url_with_slash
  | _ => None
  end.

(** A response with status 202. *)
Definition accepted (r : response) : bool := r.2 =? 202.

(** ** Words of the specification of proxy selection *)

(** The code points below 256 that [str.strip()] removes. *)
Definition py_whitespace : list nat :=
  [9; 10; 11; 12; 13; 28; 29; 30; 31; 32; 133; 160]%nat.

Fixpoint all_space (s : string) : bool :=
  match s with
  | EmptyString => true
  | String c rest => Py.isspace c && all_space rest
  end.

Definition starts_with_space (s : string) : bool :=
  match s with
  | EmptyString => false
  | String c _ => Py.isspace c
  end.

Fixpoint ends_with_space (s : string) : bool :=
  match s with
  | EmptyString => false
  | String c EmptyString => Py.isspace c
  | String _ rest => ends_with_space rest
  end.

(** The probability that [random.choice] selects [proxy], the draw
    [_randbelow(len)] being uniform on [0 .. len-1]: the number of draws
    that select [proxy], over [len]. *)
Definition selection_count (proxy_file : list string) (proxy : string) : nat :=
  length (filter (λ rnd, select_proxy proxy_file rnd = Some proxy)
                 (seq 0 (length (load_proxies proxy_file)))).

Definition selection_probability (proxy_file : list string) (proxy : string) : Q :=
  Qmake (Z.of_nat (selection_count proxy_file proxy))
        (Pos.of_nat (length (load_proxies proxy_file))).

(** * Properties *)

(** ** [get_result] *)

Section GetResult.
Variable results : gmap string result.

Lemma get_result_missing_id (args : query) :
  args_get "id" args = None → get_result results args = invalid_task_id.
Proof. intros H. unfold get_result. by rewrite H. Qed.

Lemma get_result_empty_id (args : query) :
  args_get "id" args = Some "" → get_result results args = invalid_task_id.
Proof. intros H. unfold get_result. by rewrite H. Qed.

Lemma get_result_unknown_id (args : query) (id : string) :
  args_get "id" args = Some id → results !! id = None →
  get_result results args = invalid_task_id.
Proof.
  intros H Hnone. unfold get_result. rewrite H. simpl.
  rewrite Hnone. by destruct (negb _).
Qed.

Lemma get_result_known (args : query) (id : string) (r : result) :
  args_get "id" args = Some id → id ≠ "" → results !! id = Some r →
  get_result results args =
    (Stored r, if py_in "CAPTCHA_FAIL" r then 422 else 200).
Proof.
  intros H Hne Hr. unfold get_result. rewrite H. simpl. rewrite Hr.
  destruct id; [done | reflexivity].
Qed.

(** A worker-written dictionary has the keys "value" and "elapsed_time"
    only, so the membership test of line 250 is false on it whatever its
    "value" is. *)
Lemma py_in_outcome_dict (value : string) (elapsed_time : Z) :
  py_in "CAPTCHA_FAIL"
    (RDict [("value", JStr value); ("elapsed_time", JNum elapsed_time)]) = false.
Proof. reflexivity. Qed.

Lemma get_result_solved (id token : string) (elapsed_time : Z) :
  id ≠ "" → results !! id = Some (solved_entry token elapsed_time) →
  get_result results [("id", id)] =
    (Stored (solved_entry token elapsed_time), 200).
Proof.
  intros Hne Hr.
  rewrite (get_result_known _ id (solved_entry token elapsed_time)); auto.
Qed.

Lemma get_result_pending (id : string) :
  id ≠ "" → results !! id = Some CAPTCHA_NOT_READY →
  get_result results [("id", id)] = (Stored CAPTCHA_NOT_READY, 200).
Proof.
  intros Hne Hr. rewrite (get_result_known _ id CAPTCHA_NOT_READY); auto.
Qed.

(** The test of line 250 does fire on a stored string that contains the
    sentinel and on a dictionary that has it as a key. *)
Example get_result_422_on_bare_sentinel :
  get_result {[ "T" := RString "CAPTCHA_FAIL" ]} [("id", "T")]
  = (Stored (RString "CAPTCHA_FAIL"), 422).
Proof. reflexivity. Qed.

Example get_result_422_on_sentinel_key :
  get_result {[ "T" := RDict [("CAPTCHA_FAIL", JNum 0)] ]} [("id", "T")]
  = (Stored (RDict [("CAPTCHA_FAIL", JNum 0)]), 422).
Proof. reflexivity. Qed.

End GetResult.

(** C1.  [GET /result] on a stored failure: whatever else the dictionary
    holds, an identifier [c :: id] whose entry is the failure dictionary
    [{"value": "CAPTCHA_FAIL", "elapsed_time": e}] written by line 199 is
    answered with that dictionary and status 200, not 422: line 250 tests
    the sentinel against the keys of the dictionary. *)
Theorem get_result_failed_entry_is_200
    (results : gmap string result) (c : ascii) (id : string) (e : Z) :
  get_result (<[String c id := failed_entry e]> results) [("id", String c id)]
  = (Stored (failed_entry e), 200).
Proof.
  rewrite (get_result_known _ _ (String c id) (failed_entry e)).
  - reflexivity.
  - reflexivity.
  - discriminate.
  - apply lookup_insert_eq.
Qed.

(** ** [process_recaptcha] *)


Lemma truthy_false (o : option string) :
  Py.truthy o = false ↔ o = None ∨ o = Some "".
Proof.
  destruct o as [[|c s]|]; simpl; split; intros H; auto; try discriminate.
  destruct H; discriminate.
Qed.


Lemma fresh_uuid_spec (s : api_server) (args : query) (uuid4 : string) (ct : option string) :
  fresh_uuid s (GetRecaptcha args uuid4 ct) = true →
  uuid4 ≠ "" ∧ results s !! uuid4 = None.
Proof.
  simpl. intros [H1 H2]%andb_true_iff. split.
  - intros ->. done.
  - apply negb_true_iff, bool_decide_eq_false in H2.
    by apply eq_None_not_Some.
Qed.

(** The 500 answer of lines 233-238: when [asyncio.create_task] raises, the
    pending entry of line 225 is already registered and no task exists. *)
Lemma process_recaptcha_create_task_raises
    (s : api_server) (args : query) (uuid4 message : string) :
  Py.truthy (args_get "url" args) = true →
  Py.truthy (args_get "sitekey" args) = true →
  process_recaptcha s args uuid4 (Some message)
  = (with_results (<[uuid4 := CAPTCHA_NOT_READY]> (results s)) s,
     (ErrorJson "error" message, 500)).
Proof. intros Hu Hk. unfold process_recaptcha. by rewrite Hu, Hk. Qed.



(** ** Proxy selection *)

Lemma load_proxies_nonblank (proxy_file : list string) (proxy : string) :
  proxy ∈ load_proxies proxy_file → proxy ≠ "".
Proof. unfold load_proxies. rewrite list_elem_of_filter. tauto. Qed.

Lemma random_choice_Some {A} (rnd : nat) (l : list A) :
  l ≠ [] → ∃ x, Py.random_choice rnd l = Some x ∧ x ∈ l.
Proof.
  intros Hne. unfold Py.random_choice.
  assert (rnd `mod` length l < length l)%nat as Hlt.
  { apply Nat.mod_upper_bound. destruct l; [done | simpl; lia]. }
  destruct (lookup_lt_is_Some_2 l _ Hlt) as [x Hx].
  exists x. split; [done | by eapply list_elem_of_lookup_2].
Qed.

(** Each of the [len] draws below [len] picks the entry at its own position. *)
Lemma random_choice_uniform {A} (l : list A) :
  (λ rnd, Py.random_choice rnd l) <$> seq 0 (length l) = Some <$> l.
Proof.
  apply list_eq. intros i. rewrite !list_lookup_fmap.
  destruct (decide (i < length l)%nat) as [Hlt|Hge].
  - rewrite lookup_seq_lt by done. simpl.
    unfold Py.random_choice. rewrite Nat.mod_small by done.
    destruct (lookup_lt_is_Some_2 l _ Hlt) as [x Hx]. by rewrite Hx.
  - rewrite (lookup_ge_None_2 (seq 0 (length l))) by (rewrite length_seq; lia).
    rewrite (lookup_ge_None_2 l) by lia. done.
Qed.

Lemma split_nonempty (sep : ascii) (s : string) : Py.split sep s ≠ [].
Proof.
  destruct s as [|c s]; simpl; [done|].
  destruct (Ascii.eqb c sep); [done|]. by destruct (Py.split sep s).
Qed.

Lemma join_split (sep : ascii) (s : string) : join sep (Py.split sep s) = s.
Proof.
  induction s as [|c s IH]; simpl; [done|].
  destruct (Ascii.eqb c sep) eqn:E.
  - apply Ascii.eqb_eq in E as ->.
    destruct (Py.split sep s) as [|g gs] eqn:Hs; [by apply split_nonempty in Hs|].
    change (join sep ("" :: g :: gs)) with (String sep (join sep (g :: gs))).
    by rewrite IH.
  - destruct (Py.split sep s) as [|f [|g gs]] eqn:Hs.
    + by apply split_nonempty in Hs.
    + simpl in *. by rewrite IH.
    + change (join sep (String c f :: g :: gs))
        with (String c (join sep (f :: g :: gs))).
      by rewrite IH.
Qed.

(** The whitespace [str.strip()] removes, character by character. *)
Lemma isspace_codes (c : ascii) :
  Py.isspace c = bool_decide (nat_of_ascii c ∈ py_whitespace).
Proof. destruct c as [[] [] [] [] [] [] [] []]; vm_compute; reflexivity. Qed.

Lemma lstrip_spec (s : string) :
  ∃ pre, s = pre +:+ Py.lstrip s ∧ all_space pre = true
         ∧ starts_with_space (Py.lstrip s) = false.
Proof.
  induction s as [|c s (pre & Hs & Hpre & Hstart)]; simpl.
  - by exists "".
  - destruct (Py.isspace c) eqn:Hc.
    + exists (String c pre). split.
      { change (String c s = String c (pre +:+ Py.lstrip s)). f_equal. exact Hs. }
      split; [simpl; by rewrite Hc | done].
    + exists "". split; [done|]. split; [done|]. simpl. exact Hc.
Qed.

Lemma rstrip_spec (s : string) :
  ∃ post, s = Py.rstrip s +:+ post ∧ all_space post = true
          ∧ ends_with_space (Py.rstrip s) = false
          ∧ (starts_with_space s = false → starts_with_space (Py.rstrip s) = false).
Proof.
  induction s as [|c s (post & Hs & Hpost & Hend & _)]; simpl.
  - by exists "".
  - destruct (Py.rstrip s) as [|d r] eqn:Hr.
    + change (s = post) in Hs. destruct (Py.isspace c) eqn:Hc.
      * exists (String c post). split.
        { change (String c s = String c post). f_equal. exact Hs. }
        split; [simpl; by rewrite Hc | done].
      * exists post. split.
        { change (String c s = String c post). f_equal. exact Hs. }
        split; [done|]. split; [simpl; exact Hc | done].
    + exists post. split.
      { change (String c s = String c (String d r +:+ post)). f_equal. exact Hs. }
      split; [done|]. split; [exact Hend | done].
Qed.

Lemma strip_spec (line : string) :
  ∃ pre post,
    line = pre +:+ Py.strip line +:+ post
    ∧ all_space pre = true ∧ all_space post = true
    ∧ starts_with_space (Py.strip line) = false
    ∧ ends_with_space (Py.strip line) = false.
Proof.
  destruct (lstrip_spec line) as (pre & Hl & Hpre & Hstart).
  destruct (rstrip_spec (Py.lstrip line)) as (post & Hr & Hpost & Hend & Hkeep).
  exists pre, post. unfold Py.strip.
  split; [by rewrite <- Hr|]. auto.
Qed.

Lemma load_proxies_app (l1 l2 : list string) :
  load_proxies (l1 ++ l2) = (load_proxies l1 ++ load_proxies l2)%list.
Proof. unfold load_proxies. by rewrite fmap_app, filter_app. Qed.

Lemma load_proxies_line (line : string) :
  load_proxies [line] = if decide (Py.strip line = "") then [] else [Py.strip line].
Proof.
  unfold load_proxies. simpl. rewrite filter_cons, filter_nil.
  by destruct (decide (Py.strip line = "")), (decide (Py.strip line ≠ "")).
Qed.

Lemma select_proxy_uniform (proxy_file : list string) :
  (λ rnd, select_proxy proxy_file rnd) <$> seq 0 (length (load_proxies proxy_file))
  = Some <$> load_proxies proxy_file.
Proof.
  unfold select_proxy.
  destruct (load_proxies proxy_file) as [|p ps] eqn:E; [done|].
  rewrite <- E. apply random_choice_uniform.
Qed.

Lemma length_filter_selected (g : nat → option string) (draws : list nat)
    (ps : list string) (proxy : string) :
  g <$> draws = Some <$> ps →
  length (filter (λ r, g r = Some proxy) draws)
  = length (filter (λ p, p = proxy) ps).
Proof.
  revert ps. induction draws as [|r draws IH]; intros [|p ps] Heq;
    try discriminate Heq; [done|].
  rewrite !fmap_cons in Heq. injection Heq as Hhd Htl.
  rewrite !filter_cons.
  destruct (decide (g r = Some proxy)), (decide (p = proxy));
    simpl; rewrite (IH _ Htl); congruence.
Qed.

(** The number of draws that select a candidate is the number of times it
    is listed. *)
Lemma selection_count_occurrences (proxy_file : list string) (proxy : string) :
  selection_count proxy_file proxy
  = length (filter (λ p, p = proxy) (load_proxies proxy_file)).
Proof.
  unfold selection_count.
  apply (length_filter_selected (λ rnd, select_proxy proxy_file rnd)).
  apply select_proxy_uniform.
Qed.

Lemma filter_eq_absent (l : list string) (x : string) :
  x ∉ l → filter (λ p, p = x) l = [].
Proof.
  induction l as [|p l IH]; intros Hnotin; [done|].
  apply not_elem_of_cons in Hnotin as [Hne Hnotin].
  rewrite filter_cons. destruct (decide (p = x)); [congruence | by apply IH].
Qed.

Lemma filter_eq_NoDup (l : list string) (x : string) :
  NoDup l → x ∈ l → length (filter (λ p, p = x) l) = 1%nat.
Proof.
  induction 1 as [|p l Hnotin Hnd IH]; intros Hin.
  - by apply elem_of_nil in Hin.
  - rewrite filter_cons. destruct (decide (p = x)) as [->|Hne]; simpl.
    + by rewrite filter_eq_absent.
    + apply IH. apply elem_of_cons in Hin as [->|Hin]; [done | exact Hin].
Qed.

(** C8.  Proxy selection.  The candidates are, in file order, the lines of
    the proxy file with leading and trailing whitespace removed, those that
    are blank left out.  With no candidate the selection is [None] and the
    context is requested without a proxy; otherwise the candidate at the
    drawn position is selected, and it is not empty.  The draw of
    [random.choice] being uniform on [0 .. len-1], the [len] draws select
    the [len] candidates position by position, so a candidate is selected
    with probability (number of times it is listed) / len, which is 1 / len
    when the candidates are distinct: the choice is uniform.  A line of
    exactly 3 fields is accepted as it stands, without credentials; a line
    of exactly 5 fields is accepted as [scheme://host:port] with user name
    and password; every other field count raises ValueError. *)
Theorem proxy_selection_spec (proxy_file : list string) (rnd : nat) (proxy : string) :
  let proxies := load_proxies proxy_file in
  let n := length (Py.split ":" proxy) in
  (* the candidates *)
  ((∀ c, Py.isspace c = true ↔ nat_of_ascii c ∈ py_whitespace)
   ∧ (∀ line, ∃ pre post,
        line = pre +:+ Py.strip line +:+ post
        ∧ all_space pre = true ∧ all_space post = true
        ∧ starts_with_space (Py.strip line) = false
        ∧ ends_with_space (Py.strip line) = false)
   ∧ load_proxies [] = []
   ∧ (∀ line, Py.strip line = "" → load_proxies [line] = [])
   ∧ (∀ line, Py.strip line ≠ "" → load_proxies [line] = [Py.strip line])
   ∧ (∀ l1 l2, load_proxies (l1 ++ l2) = (load_proxies l1 ++ load_proxies l2)%list))
  (* the selection *)
  ∧ (proxies = [] →
     select_proxy proxy_file rnd = None
     ∧ context_request true (Some proxy_file) rnd = Returns None)
  ∧ (proxies ≠ [] →
     ∃ p, select_proxy proxy_file rnd = Some p
          ∧ proxies !! (rnd `mod` length proxies)%nat = Some p
          ∧ ((rnd < length proxies)%nat → proxies !! rnd = Some p)
          ∧ Py.truthy (Some p) = true
          ∧ context_request true (Some proxy_file) rnd
            = match proxy_config p with
              | Returns cfg => Returns (Some cfg)
              | Raises e => Raises e
              end)
  (* uniformity *)
  ∧ ((λ r, select_proxy proxy_file r) <$> seq 0 (length proxies) = Some <$> proxies
     ∧ selection_probability proxy_file proxy
       = Qmake (Z.of_nat (length (filter (λ p, p = proxy) proxies)))
               (Pos.of_nat (length proxies))
     ∧ (NoDup proxies → proxy ∈ proxies →
        selection_probability proxy_file proxy
        = Qmake 1 (Pos.of_nat (length proxies))))
  (* the two forms of a line *)
  ∧ (n = 3%nat →
     proxy_config proxy
     = Returns {| proxy_server := proxy;
                  proxy_username := None; proxy_password := None |})
  ∧ (n = 5%nat →
     ∃ scheme host port user pass,
       Py.split ":" proxy = [scheme; host; port; user; pass]
       ∧ proxy_config proxy
         = Returns {| proxy_server := scheme +:+ "://" +:+ host +:+ ":" +:+ port;
                      proxy_username := Some user;
                      proxy_password := Some pass |})
  ∧ (n ≠ 3%nat → n ≠ 5%nat →
     proxy_config proxy = Raises (ValueError "Invalid proxy format")).
Proof.
  intros proxies n.
  split; [| split; [| split; [| split; [| split; [| split]]]]].
  - split; [|split; [|split; [|split; [|split]]]].
    + intros c. rewrite isspace_codes. apply bool_decide_eq_true.
    + apply strip_spec.
    + reflexivity.
    + intros line Hblank. rewrite load_proxies_line. by destruct (decide _).
    + intros line Hline. rewrite load_proxies_line. by destruct (decide _).
    + apply load_proxies_app.
  - unfold context_request, select_proxy. fold proxies. by intros ->.
  - intros Hne.
    destruct (random_choice_Some rnd proxies Hne) as (p & Hp & Hin).
    assert (select_proxy proxy_file rnd = Some p) as Hsel.
    { unfold select_proxy. fold proxies. by destruct proxies. }
    assert (Py.truthy (Some p) = true) as Ht.
    { apply load_proxies_nonblank in Hin. by destruct p. }
    exists p. split; [done|]. split; [exact Hp|]. split.
    { intros Hlt. unfold Py.random_choice in Hp. by rewrite Nat.mod_small in Hp. }
    split; [done|]. unfold context_request. rewrite Hsel, Ht. reflexivity.
  - split; [apply select_proxy_uniform|]. split.
    + unfold selection_probability. by rewrite selection_count_occurrences.
    + intros Hnd Hin. unfold selection_probability.
      rewrite selection_count_occurrences. fold proxies.
      by rewrite (filter_eq_NoDup _ _ Hnd Hin).
  - subst n. unfold proxy_config.
    destruct (Py.split ":" proxy) as [|a [|b [|c [|d l]]]]; simpl; intros; try lia.
    reflexivity.
  - subst n. unfold proxy_config.
    destruct (Py.split ":" proxy) as [|a [|b [|c [|d [|e [|f l]]]]]];
      simpl; intros; try lia.
    by exists a, b, c, d, e.
  - subst n. unfold proxy_config.
    destruct (Py.split ":" proxy) as [|a [|b [|c [|d [|e [|f l]]]]]];
      simpl; intros; try lia; reflexivity.
Qed.

Lemma proxy_selection_spec_witness :
  select_proxy ["http:10.0.0.1:8080"; " "; "http:10.0.0.2:3128:bob:secret"] 3
  = Some "http:10.0.0.2:3128:bob:secret"
  ∧ select_proxy [" "; ""] 3 = None
  ∧ selection_probability
      ["http:10.0.0.1:8080"; " "; "http:10.0.0.2:3128:bob:secret"]
      "http:10.0.0.1:8080" = Qmake 1 2
  ∧ proxy_config "http:10.0.0.1:8080"
    = Returns {| proxy_server := "http:10.0.0.1:8080";
                 proxy_username := None; proxy_password := None |}
  ∧ proxy_config "http:10.0.0.2:3128:bob:secret"
    = Returns {| proxy_server := "http://10.0.0.2:3128";
                 proxy_username := Some "bob"; proxy_password := Some "secret" |}
  ∧ proxy_config "10.0.0.1:8080" = Raises (ValueError "Invalid proxy format").
Proof.
  destruct (proxy_selection_spec
              ["http:10.0.0.1:8080"; " "; "http:10.0.0.2:3128:bob:secret"] 3
              "http:10.0.0.1:8080") as (_ & _ & Hsel & (_ & _ & Hprob) & H3 & _ & _).
  destruct (proxy_selection_spec [" "; ""] 3
              "http:10.0.0.2:3128:bob:secret") as (_ & Hnone & _ & _ & _ & H5 & _).
  destruct (proxy_selection_spec [] 0 "10.0.0.1:8080")
    as (_ & _ & _ & _ & _ & _ & Hbad).
  destruct (Hsel ltac:(discriminate)) as (p & Hp & Hat & _).
  destruct (Hnone eq_refl) as [Hn _].
  destruct (H5 eq_refl) as (a & b & c & d & e & Hsplit & Hcfg).
  injection Hat as <-. injection Hsplit as <- <- <- <- <-.
  split; [exact Hp |].
  split; [exact Hn |].
  split.
  { apply Hprob.
    - apply (bool_decide_unpack _). vm_compute. exact I.
    - apply list_elem_of_here. }
  split; [exact (H3 eq_refl) |].
  split; [exact Hcfg |].
  apply Hbad; simpl; lia.
Defined.

(** ** The worker, one resumption at a time *)

Ltac resume_inv H :=
  unfold resume, except_clause, _save_results in H;
  repeat match type of H with
         | context [match ?x with _ => _ end] => destruct x eqn:?
         end;
  simplify_eq; simpl in *.

Lemma resume_frame (s s' : api_server) (t : task) (w : wake) (p : phase) :
  resume s t w = Some (s', p) →
  tasks s' = tasks s ∧ proxy_support s' = proxy_support s.
Proof. intros H. resume_inv H; done. Qed.

(** Recording success saves: once [solve_recaptcha] returns, the entry is
    written and, unless the write fails, the file holds the whole dictionary. *)
Lemma resume_success_saves
    (s : api_server) (t : task) (h : handle) (start_time elapsed_time now : Z)
    (token : string) :
  at_ t = AwaitSolve h start_time elapsed_time →
  ∃ s', resume s t (WSolve (Returns token) now Written) = Some (s', AwaitClose h)
        ∧ results s' = <[task_id t := solved_entry token elapsed_time]> (results s)
        ∧ results_json s' = Parsed (results s').
Proof. intros Hat. unfold resume. rewrite Hat. eexists. split; [done|]. done. Qed.

(** C3.  Of the three mutations of [self.results] only the success one is
    followed by [_save_results].  When the solve step raises, the failure
    entry is written to the dictionary and results.json is left as it was;
    admission likewise registers the pending entry (or rejects the request)
    without touching the file. *)
Theorem failure_and_admission_do_not_save
    (s : api_server) (t : task) (h : handle) (start_time elapsed_time now : Z)
    (e : exn) (disk : write_outcome)
    (args : query) (uuid4 : string) (create_task : option string) :
  (∃ s',
     resume s (set_phase (AwaitSolve h start_time elapsed_time) t)
       (WSolve (Raises e) now disk) = Some (s', AwaitClose h)
     ∧ results s' = <[task_id t := failed_entry (now - start_time)]> (results s)
     ∧ results_json s' = results_json s)
  ∧ results_json (process_recaptcha s args uuid4 create_task).1 = results_json s.
Proof.
  split.
  - eexists. split; [reflexivity|]. done.
  - unfold process_recaptcha.
    destruct (negb _ || negb _); [done|]. by destruct create_task.
Qed.

(** Scenario B on a fresh server: the job fails, the dictionary holds the
    failure entry, and results.json has never been written. *)
Example failed_job_is_not_on_disk :
  ∃ s outs,
    run (startup 1 false ∅)
      [GetRecaptcha [("url", "https://example.test"); ("sitekey", "abc123")] "T" None;
       Resume 0 (WGet None 0);
       Resume 0 (WNewContext (Returns ()));
       Resume 0 (WNewPage (Returns ()) 0);
       Resume 0 (WRoute (Returns ()) 100);
       Resume 0 (WGoto (Returns ()) 200);
       Resume 0 (WSolve (Raises (BrowserError "timeout")) 2500 Written);
       Resume 0 (WClose (Returns ()))]
    = Some (s, outs)
    ∧ results s !! "T" = Some (failed_entry 2500)
    ∧ results_json s = NoFile
    ∧ browser_pool s = [1%nat].
Proof. do 2 eexists. split; [vm_compute; reflexivity|]. vm_compute. done. Qed.

(** The elapsed time of a success is fixed when [page.goto] returns. *)
Lemma resume_goto_fixes_elapsed
    (s : api_server) (t : task) (h : handle) (start_time now : Z) (u : string) :
  at_ t = AwaitGoto h start_time u →
  resume s t (WGoto (Returns ()) now)
  = Some (s, AwaitSolve h start_time (now - start_time)).
Proof. intros Hat. unfold resume. by rewrite Hat. Qed.

(** C6.  Scenario A: the clock starts at 0, [page.goto] returns at 0.2 s and
    the solver returns the token at [solved_at].  Whatever [solved_at] is
    (2.5 s in the scenario), the elapsed time stored and served is 0.2 s:
    line 192 reads the clock before line 193 awaits the solver. *)
Theorem elapsed_time_excludes_solve (solved_at : Z) :
  ∃ s,
    run (startup 1 false ∅)
      [GetRecaptcha [("url", "https://example.test"); ("sitekey", "abc123")] "T" None;
       Resume 0 (WGet None 0);
       Resume 0 (WNewContext (Returns ()));
       Resume 0 (WNewPage (Returns ()) 0);
       Resume 0 (WRoute (Returns ()) 100);
       Resume 0 (WGoto (Returns ()) 200);
       Resume 0 (WSolve (Returns "tok-xyz") solved_at Written);
       GetResult [("id", "T")]]
    = Some (s, [(TaskJson "T", 202);
                (Stored (RDict [("value", JStr "tok-xyz");
                                ("elapsed_time", JNum 200)]), 200)]).
Proof. eexists. vm_compute. reflexivity. Qed.

(** The failure path, for comparison, reads the clock after the failure. *)
Lemma resume_solve_failure_elapsed
    (s : api_server) (t : task) (h : handle) (start_time elapsed_time now : Z)
    (e : exn) (disk : write_outcome) :
  at_ t = AwaitSolve h start_time elapsed_time →
  ∃ s', resume s t (WSolve (Raises e) now disk) = Some (s', AwaitClose h)
        ∧ results s' !! task_id t = Some (failed_entry (now - start_time)).
Proof.
  intros Hat. unfold resume. rewrite Hat. eexists. split; [done|].
  simpl. apply lookup_insert_eq.
Qed.

(** ** The browser pool *)

Lemma delete_insert_same {A} (l : list A) (i : nat) (x : A) :
  delete i (<[i:=x]> l) = delete i l.
Proof.
  revert i. induction l as [|a l IH]; intros [|i]; simpl; try done.
  by rewrite IH.
Qed.

Lemma omap_at {A B} (f : A → option B) (l : list A) (i : nat) (x : A) :
  l !! i = Some x → omap f l ≡ₚ option_list (f x) ++ omap f (delete i l).
Proof.
  intros Hx. rewrite (delete_Permutation l i x) at 1 by done.
  simpl. by destruct (f x).
Qed.

Lemma omap_insert_at {A B} (f : A → option B) (l : list A) (i : nat) (x y : A) :
  l !! i = Some x →
  omap f (<[i:=y]> l) ≡ₚ option_list (f y) ++ omap f (delete i l).
Proof.
  intros Hx.
  rewrite (omap_at f (<[i:=y]> l) i y).
  - by rewrite delete_insert_same.
  - apply list_lookup_insert_eq. by eapply lookup_lt_Some.
Qed.

(** A resumption moves a handle between the queue and the resumed task, or
    leaves it where it is. *)
Lemma resume_pool (s s' : api_server) (t : task) (w : wake) (p : phase) :
  resume s t w = Some (s', p) →
  browser_pool s' ++ option_list (holder p)
  ≡ₚ browser_pool s ++ option_list (holder (at_ t)).
Proof.
  intros H. resume_inv H; rewrite ?app_nil_r; try done;
    symmetry; apply Permutation_cons_append.
Qed.

Lemma process_recaptcha_pool
    (s : api_server) (args : query) (uuid4 : string) (ct : option string) :
  browser_pool (process_recaptcha s args uuid4 ct).1 = browser_pool s
  ∧ owners (process_recaptcha s args uuid4 ct).1 = owners s.
Proof.
  unfold process_recaptcha, owners.
  destruct (negb _ || negb _); [done|]. destruct ct; [done|].
  simpl. rewrite omap_app. simpl. by rewrite app_nil_r.
Qed.

Lemma step_conserves_handles (s s' : api_server) (ev : event) (o : option response) :
  step s ev = Some (s', o) →
  browser_pool s' ++ owners s' ≡ₚ browser_pool s ++ owners s.
Proof.
  destruct ev as [args uuid4 ct | args | i w]; simpl; intros H.
  - pose proof (process_recaptcha_pool s args uuid4 ct) as [Hp Ho].
    destruct (process_recaptcha s args uuid4 ct) as [s1 r]. simplify_eq.
    simpl in *. by rewrite Hp, Ho.
  - by simplify_eq.
  - destruct (tasks s !! i) as [t|] eqn:Ht; simpl in H; [|done].
    destruct (resume s t w) as [[s1 p]|] eqn:Hr; simpl in H; [|done].
    simplify_eq.
    pose proof (resume_frame _ _ _ _ _ Hr) as [Hts _].
    pose proof (resume_pool _ _ _ _ _ Hr) as Hpool.
    unfold owners. simpl. rewrite Hts.
    rewrite (omap_insert_at _ _ _ t) by done.
    rewrite (omap_at (holder ∘ at_) (tasks s) i t) by done.
    simpl. rewrite !(assoc (++)). by rewrite Hpool.
Qed.

(** Handles are conserved along every run from startup: the queue together
    with the handles tasks hold is a rearrangement of the handles created by
    [_initialize_browser]. *)
Lemma run_conserves_handles (s s' : api_server) (evs : list event) (outs : list response) :
  run s evs = Some (s', outs) →
  browser_pool s' ++ owners s' ≡ₚ browser_pool s ++ owners s.
Proof.
  revert s outs. induction evs as [|ev evs IH]; simpl; intros s outs H.
  - by simplify_eq.
  - destruct (step s ev) as [[s1 o]|] eqn:Hs; simpl in H; [|done].
    destruct (run s1 evs) as [[s2 outs2]|] eqn:Hr; simpl in H; [|done].
    simplify_eq. rewrite (IH _ _ Hr). by eapply step_conserves_handles.
Qed.

Lemma initial_handles_NoDup (n : nat) : NoDup (_initialize_browser n).
Proof. apply NoDup_fmap_2; [apply _ | apply NoDup_seq]. Qed.

Lemma pool_partition (n : nat) (proxy : bool) (loaded : gmap string result)
    (evs : list event) (s : api_server) (outs : list response) :
  run (startup n proxy loaded) evs = Some (s, outs) →
  browser_pool s ++ owners s ≡ₚ _initialize_browser n.
Proof.
  intros H. rewrite (run_conserves_handles _ _ _ _ H).
  unfold owners. simpl. by rewrite app_nil_r.
Qed.

Lemma omap_weaker_length {A B} (f g : A → option B) (l : list A) :
  (∀ x, is_Some (f x) → is_Some (g x)) →
  (length (omap f l) ≤ length (omap g l))%nat.
Proof.
  intros Hfg. induction l as [|x l IH]; [done|].
  change (omap f (x :: l)) with (from_option (λ y, y :: omap f l) (omap f l) (f x)).
  change (omap g (x :: l)) with (from_option (λ y, y :: omap g l) (omap g l) (g x)).
  destruct (f x) eqn:Hf.
  - destruct (Hfg x) as [y Hy]; [by rewrite Hf|]. rewrite Hy.
    simpl. by apply le_n_S.
  - destruct (g x); simpl; [by apply Nat.le_le_succ_r | done].
Qed.

(** At most [n] handles are checked out at any time. *)
Lemma checked_out_bound (n : nat) (proxy : bool) (loaded : gmap string result)
    (evs : list event) (s : api_server) (outs : list response) :
  run (startup n proxy loaded) evs = Some (s, outs) →
  (length (checked_out s) ≤ n)%nat.
Proof.
  intros H. apply pool_partition in H.
  apply (f_equal length) in H || apply Permutation_length in H.
  rewrite length_app in H. unfold _initialize_browser in H.
  rewrite length_fmap, length_seq in H.
  assert (length (checked_out s) ≤ length (owners s))%nat; [|lia].
  apply omap_weaker_length. intros t. simpl.
  destruct (at_ t); simpl; intros [? ?]; eauto; done.
Qed.

Lemma omap_NoDup_index {A B} (f : A → option B) (l : list A) (i j : nat) (x y : A) (b : B) :
  NoDup (omap f l) → l !! i = Some x → l !! j = Some y →
  f x = Some b → f y = Some b → i = j.
Proof.
  revert i j. induction l as [|a l IH]; intros i j Hnd Hi Hj Hx Hy; [done|].
  simpl in Hnd.
  destruct i as [|i], j as [|j]; simpl in *; simplify_eq.
  - done.
  - rewrite Hx in Hnd. apply NoDup_cons in Hnd as [Hnotin _].
    destruct Hnotin. apply list_elem_of_omap. exists y.
    split; [by eapply list_elem_of_lookup_2 | done].
  - rewrite Hy in Hnd. apply NoDup_cons in Hnd as [Hnotin _].
    destruct Hnotin. apply list_elem_of_omap. exists x.
    split; [by eapply list_elem_of_lookup_2 | done].
  - f_equal. apply IH; try done. destruct (f a); [|done].
    by apply NoDup_cons in Hnd as [_ ?].
Qed.

(** No handle is held by two tasks, and a held handle is not in the queue. *)
Lemma handle_exclusive (n : nat) (proxy : bool) (loaded : gmap string result)
    (evs : list event) (s : api_server) (outs : list response)
    (i j : nat) (ti tj : task) (h : handle) :
  run (startup n proxy loaded) evs = Some (s, outs) →
  tasks s !! i = Some ti → tasks s !! j = Some tj →
  holder (at_ ti) = Some h → holder (at_ tj) = Some h →
  i = j ∧ h ∉ browser_pool s.
Proof.
  intros H Hi Hj Hhi Hhj. apply pool_partition in H.
  pose proof (initial_handles_NoDup n) as Hnd. rewrite <- H in Hnd.
  apply NoDup_app in Hnd as (_ & Hdisj & Hown). split.
  - by eapply (omap_NoDup_index (holder ∘ at_) (tasks s)).
  - intros Hin. apply (Hdisj _ Hin). apply list_elem_of_omap.
    exists ti. split; [by eapply list_elem_of_lookup_2 | done].
Qed.

(** ** A malformed proxy line *)

(** C2.  The job draws a proxy line with two fields: line 169 raises
    ValueError after line 151 took the browser and before the [try] of
    line 179, so the [finally] clause that would put the browser back never
    runs.  The task has ended, the queue is empty, and no resumption of the
    task exists that could return the handle. *)
Theorem malformed_proxy_loses_handle :
  ∃ s outs,
    run (startup 1 true ∅) malformed_proxy_run = Some (s, outs)
    ∧ at_ <$> tasks s = [SetupRaised (ValueError "Invalid proxy format") 1%nat]
    ∧ browser_pool s = []
    ∧ ∀ w, step s (Resume 0 w) = None.
Proof.
  do 2 eexists. split; [vm_compute; reflexivity|].
  split; [reflexivity|]. split; [reflexivity|].
  intros w. by destruct w.
Qed.

(** C4.  After the same ValueError the entry of the job is still the pending
    string, and is served as such with status 200: the [except] clause that
    records a failure belongs to the [try] the exception never entered.  The
    pool is not unaffected either: a second job, admitted afterwards, finds
    the queue empty and cannot take a browser. *)
Theorem malformed_proxy_job_stays_pending :
  ∃ s,
    run (startup 1 true ∅)
      (malformed_proxy_run
       ++ [GetResult [("id", "T")]; GetRecaptcha example_request "U" None])%list
    = Some (s, [(TaskJson "T", 202);
                (Stored (RString "CAPTCHA_NOT_READY"), 200);
                (TaskJson "U", 202)])
    ∧ results s !! "T" = Some (RString "CAPTCHA_NOT_READY")
    ∧ browser_pool s = []
    ∧ ∀ proxy_file rnd, step s (Resume 1 (WGet proxy_file rnd)) = None.
Proof.
  eexists. split; [vm_compute; reflexivity|].
  split; [vm_compute; reflexivity|]. split; [reflexivity|].
  intros proxy_file rnd. reflexivity.
Qed.

(** C5.  After the same ValueError the one handle of the pool is neither in
    the queue nor held by a task that is still running: it is held by the
    task that raised. *)
Theorem malformed_proxy_breaks_partition :
  ∃ s outs,
    run (startup 1 true ∅) malformed_proxy_run = Some (s, outs)
    ∧ _initialize_browser 1 = [1%nat]
    ∧ browser_pool s = []
    ∧ checked_out s = []
    ∧ lost_handles s = [1%nat].
Proof.
  do 2 eexists. split; [vm_compute; reflexivity|]. by repeat split.
Qed.

(** A task that ended with an exception stays as it is. *)
Lemma step_keeps_raised (s s' : api_server) (ev : event) (o : option response)
    (i : nat) (t : task) (h : handle) :
  step s ev = Some (s', o) → tasks s !! i = Some t → lost (at_ t) = Some h →
  ∃ t', tasks s' !! i = Some t' ∧ lost (at_ t') = Some h.
Proof.
  destruct ev as [args uuid4 ct | args | j w]; simpl; intros H Ht Hl.
  - unfold process_recaptcha in H.
    destruct (negb _ || negb _); [simplify_eq; eauto|].
    destruct ct; simplify_eq; simpl; [eauto|].
    exists t. split; [by apply lookup_app_l_Some | done].
  - simplify_eq. eauto.
  - destruct (tasks s !! j) as [tj|] eqn:Htj; simpl in H; [|done].
    destruct (resume s tj w) as [[s1 p]|] eqn:Hr; simpl in H; [|done].
    simplify_eq. pose proof (resume_frame _ _ _ _ _ Hr) as [Hts _].
    simpl. rewrite Hts.
    destruct (decide (j = i)) as [->|Hne].
    + assert (tj = t) as -> by congruence. unfold resume in Hr.
      destruct (at_ t); simpl in Hl; try done; by destruct w.
    + exists t. by rewrite list_lookup_insert_ne.
Qed.

(** X2.  Once a task has ended with an exception while holding a handle
    (raised in lines 153-175, or by [context.close()] at line 205), that
    handle is in the queue of no later state of the run: no other code
    path puts it back. *)
Lemma lost_handle_never_returns (n : nat) (proxy : bool) (loaded : gmap string result)
    (evs evs' : list event) (s s' : api_server) (outs outs' : list response)
    (i : nat) (t : task) (h : handle) :
  run (startup n proxy loaded) evs = Some (s, outs) →
  tasks s !! i = Some t → lost (at_ t) = Some h →
  run s evs' = Some (s', outs') →
  h ∉ browser_pool s'.
Proof.
  intros Hrun Ht Hl Hrun'.
  assert (∃ t', tasks s' !! i = Some t' ∧ lost (at_ t') = Some h) as (t' & Ht' & Hl').
  { clear Hrun. revert s outs' t Ht Hl Hrun'.
    induction evs' as [|ev evs' IH]; simpl; intros s outs' t Ht Hl Hrun'.
    - simplify_eq. eauto.
    - destruct (step s ev) as [[s1 o]|] eqn:Hs; simpl in Hrun'; [|done].
      destruct (run s1 evs') as [[s2 outs2]|] eqn:Hr; simpl in Hrun'; [|done].
      simplify_eq.
      destruct (step_keeps_raised _ _ _ _ _ _ _ Hs Ht Hl) as (t1 & Ht1 & Hl1).
      by eapply IH. }
  assert (run (startup n proxy loaded) (evs ++ evs') = Some (s', (outs ++ outs')%list))
    as Hall.
  { clear Ht Hl Ht' Hl'. revert Hrun. generalize (startup n proxy loaded).
    revert outs. induction evs as [|ev evs IH]; simpl; intros outs s0 Hrun.
    - by simplify_eq.
    - destruct (step s0 ev) as [[s1 o]|] eqn:Hs; simpl in *; [|done].
      destruct (run s1 evs) as [[s2 outs2]|] eqn:Hr; simpl in Hrun; [|done].
      simplify_eq. rewrite (IH _ _ Hr). simpl. by rewrite (assoc (++)). }
  assert (holder (at_ t') = Some h) as Hh.
  { destruct (at_ t'); simpl in *; done. }
  by destruct (handle_exclusive _ _ _ _ _ _ i i t' t' h Hall Ht' Ht' Hh Hh).
Qed.

(** ** Pending entries *)

Lemma resume_results (s s' : api_server) (t : task) (w : wake) (p : phase) :
  resume s t w = Some (s', p) →
  (∀ k, k ≠ task_id t → results s' !! k = results s !! k)
  ∧ (∀ k, is_Some (results s !! k) → is_Some (results s' !! k))
  ∧ (unwritten p = true → unwritten (at_ t) = true ∧ results s' = results s).
Proof.
  intros H. resume_inv H;
    (split; [|split]);
    try done;
    try (intros k Hk; by rewrite lookup_insert_ne);
    try (intros k Hk; destruct (decide (task_id t = k)) as [<-|];
         [rewrite lookup_insert_eq; eauto | by rewrite lookup_insert_ne]);
    try (intros _; by rewrite Heqp0).
Qed.

Lemma step_pending_inv (s s' : api_server) (ev : event) (o : option response) :
  fresh_uuid s ev = true → step s ev = Some (s', o) →
  pending_inv s → pending_inv s'.
Proof.
  destruct ev as [args uuid4 ct | args | i w]; intros Hfresh H [Hnd Hinv].
  - apply fresh_uuid_spec in Hfresh as [Hne Hnone].
    assert (∀ t, t ∈ tasks s → task_id t ≠ uuid4) as Hother.
    { intros t Ht Heq. destruct (Hinv t Ht) as (_ & [? Hsome] & _).
      rewrite Heq in Hsome. congruence. }
    simpl in H. unfold process_recaptcha in H.
    destruct (negb _ || negb _); [by simplify_eq|].
    destruct ct; simplify_eq; (split; simpl).
    + done.
    + intros t Ht. destruct (Hinv t Ht) as (? & ? & ?). simpl.
      rewrite lookup_insert_ne by (by apply not_eq_sym, Hother). done.
    + rewrite fmap_app. apply NoDup_app. split; [done|]. split.
      * intros id (t & -> & Ht)%list_elem_of_fmap Hin. simpl in Hin.
        apply list_elem_of_singleton in Hin. by apply (Hother t).
      * apply NoDup_singleton.
    + intros t [Ht|Ht]%elem_of_app; [|apply list_elem_of_singleton in Ht as ->].
      * destruct (Hinv t Ht) as (? & ? & ?). simpl.
        rewrite lookup_insert_ne by (by apply not_eq_sym, Hother). done.
      * simpl. rewrite lookup_insert_eq. eauto.
  - simpl in H. by simplify_eq.
  - simpl in H.
    destruct (tasks s !! i) as [t|] eqn:Ht; simpl in H; [|done].
    destruct (resume s t w) as [[s1 p]|] eqn:Hr; simpl in H; [|done].
    simplify_eq.
    pose proof (resume_frame _ _ _ _ _ Hr) as [Hts _].
    pose proof (resume_results _ _ _ _ _ Hr) as (Hframe & Hsome & Hunw).
    assert (task_id <$> <[i:=set_phase p t]> (tasks s) = task_id <$> tasks s) as Hids.
    { rewrite list_fmap_insert. apply list_insert_id.
      by rewrite list_lookup_fmap, Ht. }
    split; simpl; rewrite Hts; [by rewrite Hids|].
    intros t' [j Hj]%list_elem_of_lookup.
    apply list_lookup_insert_Some in Hj as [(-> & <- & _)|(Hne & Hj)].
    + destruct (Hinv t) as (? & ? & Hp); [by eapply list_elem_of_lookup_2|].
      simpl. split; [done|]. split; [by apply Hsome|].
      intros Hu. destruct (Hunw Hu) as [Hu' ->]. by apply Hp.
    + destruct (Hinv t') as (? & ? & Hp); [by eapply list_elem_of_lookup_2|].
      assert (task_id t' ≠ task_id t) as Hid.
      { intros Heq. apply Hne.
        apply (NoDup_lookup _ _ _ (task_id t) Hnd);
          rewrite list_lookup_fmap; [by rewrite Ht | rewrite Hj; simpl; by f_equal]. }
      rewrite (Hframe _ Hid). done.
Qed.

Lemma run_pending_inv (s s' : api_server) (evs : list event) (outs : list response) :
  fresh_uuids s evs = true → run s evs = Some (s', outs) →
  pending_inv s → pending_inv s'.
Proof.
  revert s outs. induction evs as [|ev evs IH]; simpl; intros s outs Hf H Hinv.
  - by simplify_eq.
  - apply andb_true_iff in Hf as [Hf1 Hf2].
    destruct (step s ev) as [[s1 o]|] eqn:Hs; simpl in H; [|done].
    destruct (run s1 evs) as [[s2 outs2]|] eqn:Hr; simpl in H; [|done].
    simplify_eq. eapply IH; [done | done |]. by eapply step_pending_inv.
Qed.

(** C10.  Along every run from startup in which [uuid4] yields non-empty
    identifiers not yet in the dictionary, every task that has not yet
    written an outcome has the bare string "CAPTCHA_NOT_READY" stored under
    its identifier, and [GET /result] for that identifier answers that
    string with status 200. *)
Theorem pending_until_written
    (n : nat) (proxy : bool) (loaded : gmap string result)
    (evs : list event) (s : api_server) (outs : list response) (t : task) :
  fresh_uuids (startup n proxy loaded) evs = true →
  run (startup n proxy loaded) evs = Some (s, outs) →
  t ∈ tasks s → unwritten (at_ t) = true →
  results s !! task_id t = Some (RString "CAPTCHA_NOT_READY")
  ∧ get_result (results s) [("id", task_id t)]
    = (Stored (RString "CAPTCHA_NOT_READY"), 200).
Proof.
  intros Hf Hrun Ht Hu.
  assert (pending_inv (startup n proxy loaded)) as H0.
  { split; simpl; [apply NoDup_nil_2 | intros ? []%elem_of_nil]. }
  destruct (run_pending_inv _ _ _ _ Hf Hrun H0) as [_ Hinv].
  destruct (Hinv t Ht) as (Hne & _ & Hp).
  split; [by apply Hp|]. apply get_result_pending; [done | by apply Hp].
Qed.

Lemma pending_until_written_witness :
  ∃ s outs,
    run (startup 1 false ∅) two_jobs_run = Some (s, outs)
    ∧ results s !! "T" = Some (RString "CAPTCHA_NOT_READY")
    ∧ get_result (results s) [("id", "T")]
      = (Stored (RString "CAPTCHA_NOT_READY"), 200).
Proof.
  do 2 eexists. split; [vm_compute; reflexivity|].
  eapply (pending_until_written 1 false ∅ two_jobs_run _ _
           {| task_id := "T"; url := "https://example.test"; sitekey := "abc123";
              action := None; min_score := None; invisible := None;
              enterprise := None; data_s := None;
              at_ := AwaitRoute 1%nat 0 "https://example.test/" |}).
  - vm_compute. reflexivity.
  - vm_compute. reflexivity.
  - apply list_elem_of_here.
  - reflexivity.
Defined.

(** ** The optional request parameters *)

Lemma resume_sim (s1 s2 : api_server) (t1 t2 : task) (w : wake) :
  server_sim s1 s2 → task_sim t1 t2 →
  match resume s1 t1 w, resume s2 t2 w with
  | Some (s1', p1), Some (s2', p2) => server_sim s1' s2' ∧ p1 = p2
  | None, None => True
  | _, _ => False
  end.
Proof.
  destruct s1 as [ps1 r1 bp1 ts1 f1], s2 as [ps2 r2 bp2 ts2 f2].
  intros (Hps & Hr & Hbp & Hf & Hts) (Hid & Hurl & _ & Hat).
  simpl in *. subst ps2 r2 bp2 f2.
  unfold resume, except_clause, _save_results.
  rewrite <- Hat, <- Hid, <- Hurl. simpl.
  destruct (at_ t1), w; simpl; try done;
    repeat match goal with
           | |- context [match ?x with _ => _ end] => is_var x; destruct x; simpl
           | |- context [context_request ?a ?b ?c] =>
               destruct (context_request a b c); simpl
           end;
    try done;
    (split; [unfold server_sim; simpl; repeat split; done | done]).
Qed.

Lemma set_phase_sim (t1 t2 : task) (p : phase) :
  task_sim t1 t2 → task_sim (set_phase p t1) (set_phase p t2).
Proof. intros (? & ? & ? & ?). by repeat split. Qed.

Lemma step_sim (s1 s2 : api_server) (e1 e2 : event) :
  server_sim s1 s2 → event_sim e1 e2 →
  match step s1 e1, step s2 e2 with
  | Some (s1', o1), Some (s2', o2) => server_sim s1' s2' ∧ o1 = o2
  | None, None => True
  | _, _ => False
  end.
Proof.
  intros Hs He.
  destruct e1 as [a1 u1 c1 | a1 | i1 w1], e2 as [a2 u2 c2 | a2 | i2 w2];
    simpl in He; try discriminate He.
  - destruct He as (Hurl & Hkey & <- & <-).
    destruct Hs as (Hps & Hr & Hbp & Hf & Hts).
    simpl. unfold process_recaptcha. rewrite <- Hurl, <- Hkey.
    destruct (negb _ || negb _); simpl; [done|].
    destruct c1; simpl; (split; [|done]); unfold server_sim; simpl;
      rewrite Hr; repeat split; try done.
    apply Forall2_app; [done|]. by repeat constructor.
  - simplify_eq. simpl. destruct Hs as (Hps & Hr & Hbp & Hf & Hts).
    split; [done|]. by rewrite Hr.
  - simplify_eq. simpl.
    pose proof Hs as (Hps & Hr & Hbp & Hf & Hts).
    pose proof (proj1 (Forall2_lookup _ _ _) Hts i2) as Hi.
    destruct Hi as [t1 t2 Ht|]; simpl; [|done].
    pose proof (resume_sim s1 s2 t1 t2 w2 Hs Ht) as Hres.
    destruct (resume s1 t1 w2) as [[s1' p1]|] eqn:H1,
             (resume s2 t2 w2) as [[s2' p2]|] eqn:H2; simpl; try done.
    destruct Hres as [(Hps' & Hr' & Hbp' & Hf' & Hts') <-].
    split; [|done]. unfold server_sim. simpl. repeat split; try done.
    apply Forall2_insert; [done|]. by apply set_phase_sim.
Qed.

(** C9.  Two runs of the server whose events are the same except that the
    admissions may differ in the optional parameters ([url], [sitekey], the
    identifier drawn and the outcome of [create_task] being the same) give
    the same responses, and end in states with the same result dictionary,
    queue, file and tasks at the same [await] with the same arguments; if
    one run is not possible (a task resumed that is not waiting, or waiting
    on an empty queue), neither is the other. *)
Theorem optional_parameters_have_no_effect
    (s1 s2 : api_server) (evs1 evs2 : list event) :
  server_sim s1 s2 → Forall2 event_sim evs1 evs2 →
  match run s1 evs1, run s2 evs2 with
  | Some (s1', outs1), Some (s2', outs2) => server_sim s1' s2' ∧ outs1 = outs2
  | None, None => True
  | _, _ => False
  end.
Proof.
  intros Hs Hevs. revert s1 s2 Hs.
  induction Hevs as [|e1 e2 evs1 evs2 He Hevs IH]; intros s1 s2 Hs; simpl.
  - done.
  - pose proof (step_sim s1 s2 e1 e2 Hs He) as Hstep.
    destruct (step s1 e1) as [[s1' o1]|], (step s2 e2) as [[s2' o2]|];
      simpl; try done.
    destruct Hstep as [Hs' <-].
    specialize (IH s1' s2' Hs').
    destruct (run s1' evs1) as [[s1'' outs1]|], (run s2' evs2) as [[s2'' outs2]|];
      simpl; try done.
    destruct IH as [? <-]. done.
Qed.

Lemma optional_parameters_have_no_effect_witness :
  match
    run (startup 1 false ∅)
      [GetRecaptcha example_request "T" None;
       Resume 0 (WGet None 0); GetResult [("id", "T")]],
    run (startup 1 false ∅)
      [GetRecaptcha (example_request
                     ++ [("action", "login"); ("min_score", "0.9");
                         ("invisible", "1"); ("enterprise", "1");
                         ("data-s", "xyz")])%list "T" None;
       Resume 0 (WGet None 0); GetResult [("id", "T")]]
  with
  | Some (s1', outs1), Some (s2', outs2) => server_sim s1' s2' ∧ outs1 = outs2
  | None, None => True
  | _, _ => False
  end.
Proof.
  apply optional_parameters_have_no_effect.
  - unfold server_sim. simpl. repeat split; constructor.
  - repeat constructor.
Defined.

(** * Further properties of the dispatcher *)

(** ** The result dictionary *)

Lemma step_results_grow (s s' : api_server) (ev : event) (o : option response) (k : string) :
  step s ev = Some (s', o) →
  is_Some (results s !! k) → is_Some (results s' !! k).
Proof.
  destruct ev as [args uuid4 ct | args | i w]; simpl; intros H Hk.
  - unfold process_recaptcha in H.
    destruct (negb _ || negb _); [by simplify_eq|].
    destruct ct; simplify_eq; simpl;
      (destruct (decide (uuid4 = k)) as [->|];
       [rewrite lookup_insert_eq; eauto | by rewrite lookup_insert_ne]).
  - by simplify_eq.
  - destruct (tasks s !! i) as [t|] eqn:Ht; simpl in H; [|done].
    destruct (resume s t w) as [[s1 p]|] eqn:Hr; simpl in H; [|done].
    simplify_eq. simpl. by apply (resume_results _ _ _ _ _ Hr).
Qed.

Lemma run_results_grow
    (s s' : api_server) (evs : list event) (outs : list response) (k : string) :
  run s evs = Some (s', outs) →
  is_Some (results s !! k) → is_Some (results s' !! k).
Proof.
  revert s outs. induction evs as [|ev evs IH]; simpl; intros s outs H Hk.
  - by simplify_eq.
  - destruct (step s ev) as [[s1 o]|] eqn:Hs; simpl in H; [|done].
    destruct (run s1 evs) as [[s2 outs2]|] eqn:Hr; simpl in H; [|done].
    simplify_eq. eapply IH; [done|]. by eapply step_results_grow.
Qed.

(** X3.  No entry of [self.results] is ever deleted or lost: along a run the
    set of identifiers known to [GET /result] only grows, and it contains
    whatever [_load_results] had loaded at startup. *)
Theorem entries_are_never_deleted
    (s s' : api_server) (evs : list event) (outs : list response) :
  run s evs = Some (s', outs) →
  dom (results s) ⊆ dom (results s')
  ∧ ∀ args, get_result (results s) args ≠ invalid_task_id →
            get_result (results s') args ≠ invalid_task_id.
Proof.
  intros Hrun. split.
  - intros k Hk%elem_of_dom. apply elem_of_dom. by eapply run_results_grow.
  - intros args. unfold get_result.
    destruct (negb _); [done|].
    destruct (args_get "id" args) as [id|]; simpl; [|done].
    destruct (results s !! id) as [r|] eqn:Hr; [|done]. intros _.
    destruct (run_results_grow _ _ _ _ id Hrun) as [r' Hr']; [by rewrite Hr|].
    by rewrite Hr'.
Qed.

Lemma entries_are_never_deleted_witness :
  ∃ s outs,
    run (startup 1 false {[ "old" := solved_entry "tok" 10 ]}) two_jobs_run
    = Some (s, outs)
    ∧ dom ({[ "old" := solved_entry "tok" 10 ]} : gmap string result)
      ⊆ dom (results s).
Proof.
  do 2 eexists. split; [vm_compute; reflexivity|].
  refine (proj1 (entries_are_never_deleted (startup 1 false _) _ two_jobs_run _ _)).
  vm_compute. reflexivity.
Defined.

(** X4.  A resumed worker writes no entry but its own: every other key of
    [self.results] is as it was. *)
Theorem worker_writes_own_key_only
    (s s' : api_server) (i : nat) (w : wake) (o : option response)
    (t : task) (k : string) :
  step s (Resume i w) = Some (s', o) → tasks s !! i = Some t →
  k ≠ task_id t → results s' !! k = results s !! k.
Proof.
  simpl. intros H Ht Hk. rewrite Ht in H. simpl in H.
  destruct (resume s t w) as [[s1 p]|] eqn:Hr; simpl in H; [|done].
  simplify_eq. simpl. by apply (resume_results _ _ _ _ _ Hr).
Qed.

Lemma resume_written_results (s s' : api_server) (t : task) (w : wake) (p : phase) :
  resume s t w = Some (s', p) → unwritten (at_ t) = false →
  results s' = results s ∧ unwritten p = false.
Proof. intros H Hu. resume_inv H; try done; by rewrite Heqp0 in Hu. Qed.

Lemma fresh_uuids_app (s s' : api_server) (evs evs' : list event) (outs : list response) :
  fresh_uuids s (evs ++ evs') = true → run s evs = Some (s', outs) →
  fresh_uuids s evs = true ∧ fresh_uuids s' evs' = true.
Proof.
  revert s outs. induction evs as [|ev evs IH]; simpl; intros s outs Hf H.
  - by simplify_eq.
  - apply andb_true_iff in Hf as [Hf1 Hf2].
    destruct (step s ev) as [[s1 o]|] eqn:Hs; simpl in H; [|done].
    destruct (run s1 evs) as [[s2 outs2]|] eqn:Hr; simpl in H; [|done].
    simplify_eq. destruct (IH _ _ Hf2 Hr) as [? ?].
    split; [|done]. by rewrite Hf1.
Qed.

Lemma step_written_stable (s s' : api_server) (ev : event) (o : option response)
    (i : nat) (t : task) :
  pending_inv s → fresh_uuid s ev = true → step s ev = Some (s', o) →
  tasks s !! i = Some t → unwritten (at_ t) = false →
  results s' !! task_id t = results s !! task_id t
  ∧ ∃ t', tasks s' !! i = Some t' ∧ task_id t' = task_id t
          ∧ unwritten (at_ t') = false.
Proof.
  intros [Hnd Hinv] Hfresh H Ht Hu.
  destruct (Hinv t) as (_ & [r Hr] & _); [by eapply list_elem_of_lookup_2|].
  destruct ev as [args uuid4 ct | args | j w]; simpl in H.
  - apply fresh_uuid_spec in Hfresh as [_ Hnone].
    assert (uuid4 ≠ task_id t) as Hne by congruence.
    unfold process_recaptcha in H.
    destruct (negb _ || negb _); [simplify_eq; eauto|].
    destruct ct; simplify_eq; simpl; rewrite lookup_insert_ne by done.
    + eauto.
    + split; [done|]. exists t. split; [by apply lookup_app_l_Some | done].
  - simplify_eq. eauto.
  - destruct (tasks s !! j) as [tj|] eqn:Htj; simpl in H; [|done].
    destruct (resume s tj w) as [[s1 p]|] eqn:Hres; simpl in H; [|done].
    simplify_eq. pose proof (resume_frame _ _ _ _ _ Hres) as [Hts _].
    simpl. rewrite Hts.
    destruct (decide (j = i)) as [->|Hne].
    + assert (tj = t) as -> by congruence.
      destruct (resume_written_results _ _ _ _ _ Hres Hu) as [-> Hp].
      split; [done|]. exists (set_phase p t).
      split; [|done]. apply list_lookup_insert_eq. by eapply lookup_lt_Some.
    + assert (task_id t ≠ task_id tj) as Hid.
      { intros Heq. apply Hne.
        apply (NoDup_lookup _ _ _ (task_id t) Hnd);
          rewrite list_lookup_fmap; [rewrite Htj; simpl; by f_equal | by rewrite Ht]. }
      split; [by apply (resume_results _ _ _ _ _ Hres)|].
      exists t. by rewrite list_lookup_insert_ne.
Qed.

(** X5.  An outcome is written once: while [uuid4] yields fresh
    identifiers, the entry of a task that has written its outcome (success
    or failure) is never changed again, by that task, by another task or by
    an admission. *)
Theorem outcome_is_written_once
    (n : nat) (proxy : bool) (loaded : gmap string result)
    (evs evs' : list event) (s s' : api_server) (outs outs' : list response)
    (i : nat) (t : task) :
  fresh_uuids (startup n proxy loaded) (evs ++ evs') = true →
  run (startup n proxy loaded) evs = Some (s, outs) →
  run s evs' = Some (s', outs') →
  tasks s !! i = Some t → unwritten (at_ t) = false →
  results s' !! task_id t = results s !! task_id t.
Proof.
  intros Hf Hrun Hrun' Ht Hu.
  destruct (fresh_uuids_app _ _ _ _ _ Hf Hrun) as [Hf1 Hf2].
  assert (pending_inv s) as Hinv.
  { eapply run_pending_inv; [exact Hf1 | exact Hrun |].
    split; simpl; [apply NoDup_nil_2 | intros ? []%elem_of_nil]. }
  clear Hf Hf1 Hrun. revert s outs' t Hinv Hf2 Hrun' Ht Hu.
  induction evs' as [|ev evs' IH]; simpl; intros s outs' t Hinv Hf Hrun' Ht Hu.
  - by simplify_eq.
  - apply andb_true_iff in Hf as [Hf1 Hf2].
    destruct (step s ev) as [[s1 o]|] eqn:Hs; simpl in Hrun'; [|done].
    destruct (run s1 evs') as [[s2 outs2]|] eqn:Hr; simpl in Hrun'; [|done].
    simplify_eq.
    destruct (step_written_stable _ _ _ _ _ _ Hinv Hf1 Hs Ht Hu)
      as (Heq & t1 & Ht1 & Hid & Hu1).
    rewrite <- Heq, <- Hid.
    eapply IH; try done. by eapply step_pending_inv.
Qed.

(** ** The queue as admission control *)

Lemma step_empty_pool (s s' : api_server) (ev : event) (o : option response) :
  step s ev = Some (s', o) →
  browser_pool s = [] → (∀ t, t ∈ tasks s → at_ t = AwaitGet) →
  browser_pool s' = [] ∧ ∀ t, t ∈ tasks s' → at_ t = AwaitGet.
Proof.
  destruct ev as [args uuid4 ct | args | i w]; simpl; intros H Hp Hall.
  - unfold process_recaptcha in H.
    destruct (negb _ || negb _); [by simplify_eq|].
    destruct ct; simplify_eq; simpl; (split; [done|]); [done|].
    intros t [Ht|Ht]%elem_of_app; [by apply Hall|].
    by apply list_elem_of_singleton in Ht as ->.
  - by simplify_eq.
  - destruct (tasks s !! i) as [t|] eqn:Ht; simpl in H; [|done].
    assert (at_ t = AwaitGet) as Hat.
    { apply Hall. by eapply list_elem_of_lookup_2. }
    unfold resume in H. rewrite Hat, Hp in H. by destruct w.
Qed.

(** X6.  A server started with no browser ([--thread 0]) never starts a job:
    after any run the queue is still empty and every admitted job is still
    suspended at [browser_pool.get()]. *)
Theorem empty_pool_starts_no_job
    (proxy : bool) (loaded : gmap string result)
    (evs : list event) (s : api_server) (outs : list response) :
  run (startup 0 proxy loaded) evs = Some (s, outs) →
  browser_pool s = [] ∧ ∀ t, t ∈ tasks s → at_ t = AwaitGet.
Proof.
  assert (∀ s0, browser_pool s0 = [] → (∀ t, t ∈ tasks s0 → at_ t = AwaitGet) →
                run s0 evs = Some (s, outs) →
                browser_pool s = [] ∧ ∀ t, t ∈ tasks s → at_ t = AwaitGet) as Hgen.
  { revert outs. induction evs as [|ev evs IH]; simpl; intros outs s0 Hp Hall H.
    - by simplify_eq.
    - destruct (step s0 ev) as [[s1 o]|] eqn:Hs; simpl in H; [|done].
      destruct (run s1 evs) as [[s2 outs2]|] eqn:Hr; simpl in H; [|done].
      simplify_eq.
      destruct (step_empty_pool _ _ _ _ Hs Hp Hall) as [Hp1 Hall1].
      by eapply IH. }
  apply Hgen; [done | intros ? []%elem_of_nil].
Qed.

Lemma empty_pool_starts_no_job_witness :
  ∃ s outs,
    run (startup 0 false ∅)
      [GetRecaptcha example_request "T" None; GetResult [("id", "T")]]
    = Some (s, outs)
    ∧ browser_pool s = [] ∧ ∀ t, t ∈ tasks s → at_ t = AwaitGet.
Proof.
  do 2 eexists. split; [vm_compute; reflexivity|].
  eapply (empty_pool_starts_no_job false ∅
            [GetRecaptcha example_request "T" None; GetResult [("id", "T")]]).
  vm_compute. reflexivity.
Defined.

(** X7.  Backpressure and progress.  In a state reached from startup with
    [n] browsers, a job suspended at [browser_pool.get()] can be resumed
    exactly when fewer than [n] handles are held by tasks: when all [n] are
    held it stays suspended, whatever the event loop offers it; otherwise it
    takes a handle. *)
Theorem get_blocks_iff_all_handles_held
    (n : nat) (proxy : bool) (loaded : gmap string result)
    (evs : list event) (s : api_server) (outs : list response)
    (i : nat) (t : task) (proxy_file : option (list string)) (rnd : nat) :
  run (startup n proxy loaded) evs = Some (s, outs) →
  tasks s !! i = Some t → at_ t = AwaitGet →
  (length (owners s) = n → ∀ w, step s (Resume i w) = None)
  ∧ ((length (owners s) < n)%nat →
     ∃ s', step s (Resume i (WGet proxy_file rnd)) = Some (s', None)
           ∧ (length (owners s') = S (length (owners s)))%nat).
Proof.
  intros Hrun Ht Hat.
  pose proof (pool_partition _ _ _ _ _ _ Hrun) as Hperm.
  apply Permutation_length in Hperm.
  rewrite length_app in Hperm. unfold _initialize_browser in Hperm.
  rewrite length_fmap, length_seq in Hperm.
  split.
  - intros Hfull w. simpl. rewrite Ht. simpl. unfold resume. rewrite Hat.
    destruct (browser_pool s) eqn:Hp; [by destruct w | simpl in Hperm; lia].
  - intros Hless.
    destruct (step s (Resume i (WGet proxy_file rnd))) as [[s' o]|] eqn:Hs.
    + pose proof (step_conserves_handles _ _ _ _ Hs) as Hc.
      apply Permutation_length in Hc. rewrite !length_app in Hc.
      simpl in Hs. rewrite Ht in Hs. simpl in Hs. unfold resume in Hs.
      rewrite Hat in Hs.
      destruct (browser_pool s) as [|h rest] eqn:Hp; [done|]. simpl in Hs.
      destruct (context_request _ _ _); simpl in Hs; simplify_eq;
        (eexists; split; [reflexivity|]); simpl in Hc |- *;
        unfold owners in *; simpl in *; lia.
    + exfalso. simpl in Hs. rewrite Ht in Hs. simpl in Hs. unfold resume in Hs.
      rewrite Hat in Hs.
      destruct (browser_pool s) as [|h rest] eqn:Hp; [simpl in Hperm; lia|].
      simpl in Hs. by destruct (context_request _ _ _).
Qed.

(** ** results.json *)

Lemma step_file_untouched (s s' : api_server) (ev : event) (o : option response) :
  step s ev = Some (s', o) → solve_returns ev = false →
  results_json s' = results_json s.
Proof.
  destruct ev as [args uuid4 ct | args | i w]; simpl; intros H Hsave.
  - unfold process_recaptcha in H.
    destruct (negb _ || negb _); [by simplify_eq|]. by destruct ct; simplify_eq.
  - by simplify_eq.
  - destruct (tasks s !! i) as [t|] eqn:Ht; simpl in H; [|done].
    destruct (resume s t w) as [[s1 p]|] eqn:Hr; simpl in H; [|done].
    simplify_eq. simpl. resume_inv Hr; done.
Qed.

Lemma step_file_not_rewritten (s s' : api_server) (ev : event) (o : option response) :
  step s ev = Some (s', o) → saving_event ev = false →
  results_json s' = results_json s ∨ results_json s' = Unreadable.
Proof.
  destruct ev as [args uuid4 ct | args | i w]; simpl; intros H Hsave.
  - left. unfold process_recaptcha in H.
    destruct (negb _ || negb _); [by simplify_eq|]. by destruct ct; simplify_eq.
  - left. by simplify_eq.
  - destruct (tasks s !! i) as [t|] eqn:Ht; simpl in H; [|done].
    destruct (resume s t w) as [[s1 p]|] eqn:Hr; simpl in H; [|done].
    simplify_eq. simpl. resume_inv Hr; auto.
Qed.

Lemma run_file_not_rewritten
    (s s' : api_server) (evs : list event) (outs : list response) :
  run s evs = Some (s', outs) → forallb (λ ev, negb (saving_event ev)) evs = true →
  results_json s' = results_json s ∨ results_json s' = Unreadable.
Proof.
  revert s outs. induction evs as [|ev evs IH]; simpl; intros s outs H Hno.
  - simplify_eq. by left.
  - apply andb_true_iff in Hno as [Hev Hno]. apply negb_true_iff in Hev.
    destruct (step s ev) as [[s1 o]|] eqn:Hs; simpl in H; [|done].
    destruct (run s1 evs) as [[s2 outs2]|] eqn:Hr; simpl in H; [|done].
    simplify_eq.
    destruct (IH _ _ Hr Hno) as [Heq|Hun]; [|by right].
    rewrite Heq. by eapply step_file_not_rewritten.
Qed.

(** X8.  results.json is touched by nothing but the [_save_results] call
    that follows a returning solver call: along a run in which no solver
    call returns, the file is left exactly as it was, however many jobs
    were admitted or failed; and when a solver call does return, the file
    afterwards holds the whole dictionary if the write completes, is
    unchanged if [open] raises, and is left unreadable if [json.dump]
    raises after [open] truncated it. *)
Theorem file_written_only_on_success
    (s s' : api_server) (evs : list event) (outs : list response) :
  run s evs = Some (s', outs) →
  forallb (λ ev, negb (solve_returns ev)) evs = true →
  results_json s' = results_json s
  ∧ ∀ i t h start_time elapsed_time token now disk s'',
      tasks s' !! i = Some t → at_ t = AwaitSolve h start_time elapsed_time →
      step s' (Resume i (WSolve (Returns token) now disk)) = Some (s'', None) →
      results_json s''
      = match disk with
        | Written => Parsed (results s'')
        | OpenRaises => results_json s'
        | DumpRaises => Unreadable
        end.
Proof.
  intros Hrun Hno. split.
  - clear -Hrun Hno. revert s outs Hrun Hno.
    induction evs as [|ev evs IH]; simpl; intros s outs H Hno.
    + by simplify_eq.
    + apply andb_true_iff in Hno as [Hev Hno]. apply negb_true_iff in Hev.
      destruct (step s ev) as [[s1 o]|] eqn:Hs; simpl in H; [|done].
      destruct (run s1 evs) as [[s2 outs2]|] eqn:Hr; simpl in H; [|done].
      simplify_eq. rewrite (IH _ _ Hr Hno). by eapply step_file_untouched.
  - intros i t h start_time elapsed_time token now disk s'' Ht Hat Hstep.
    simpl in Hstep. rewrite Ht in Hstep. simpl in Hstep.
    unfold resume in Hstep. rewrite Hat in Hstep. simpl in Hstep.
    simplify_eq. by destruct disk.
Qed.

(** X9.  Restart after a run on a fresh server in which no solve succeeded:
    [_load_results] finds no file, so the restarted server answers 400 to
    every [GET /result], also for the identifiers of jobs that had failed
    or were pending. *)
Theorem failures_do_not_survive_restart
    (n : nat) (proxy : bool) (evs : list event) (s : api_server)
    (outs : list response) (args : query) :
  run (startup n proxy ∅) evs = Some (s, outs) →
  forallb (λ ev, negb (saving_event ev)) evs = true →
  get_result (results (startup n proxy (_load_results (results_file_of s)))) args
  = (ErrorJson "error" "Invalid task ID/Request parameter", 400).
Proof.
  intros Hrun Hno.
  assert (_load_results (results_file_of s) = ∅) as ->.
  { unfold results_file_of.
    destruct (run_file_not_rewritten _ _ _ _ Hrun Hno) as [-> | ->]; done. }
  simpl. unfold get_result. destruct (negb _); [done|].
  destruct (args_get "id" args); simpl; [by rewrite lookup_empty | done].
Qed.

(** ** [get_result], the 400 answers *)

(** X10.  [GET /result] answers the 400 error exactly when the [id]
    parameter is missing, empty or not a key of [self.results]; in every
    other case the body is the stored value itself. *)
Theorem get_result_400_iff (results : gmap string result) (args : query) :
  get_result results args = (ErrorJson "error" "Invalid task ID/Request parameter", 400)
  ↔ args_get "id" args = None ∨ args_get "id" args = Some ""
    ∨ ∃ id, args_get "id" args = Some id ∧ results !! id = None.
Proof.
  unfold get_result.
  destruct (args_get "id" args) as [[|c id]|] eqn:Hid; simpl.
  - split; auto.
  - destruct (results !! String c id) as [r|] eqn:Hr.
    + split; [discriminate|].
      intros [?|[?|(id' & ? & ?)]]; simplify_eq.
    + split; [|done]. intros _. right. right. eauto.
  - split; auto.
Qed.

(** ** The handles, together *)

(** X1.  In every state reached from startup with [n] browsers: the queue
    and the handles held by tasks (running, or ended by an exception) are
    together a rearrangement of the [n] handles [_initialize_browser]
    created; at most [n] handles are checked out by running tasks; and a
    handle held by a task is held by no other task and is not in the
    queue. *)
Theorem pool_invariant
    (n : nat) (proxy : bool) (loaded : gmap string result)
    (evs : list event) (s : api_server) (outs : list response) :
  run (startup n proxy loaded) evs = Some (s, outs) →
  browser_pool s ++ owners s ≡ₚ S <$> seq 0 n
  ∧ (length (checked_out s) ≤ n)%nat
  ∧ (length (browser_pool s) + length (owners s) = n)%nat
  ∧ ∀ i j ti tj h,
      tasks s !! i = Some ti → tasks s !! j = Some tj →
      holder (at_ ti) = Some h → holder (at_ tj) = Some h →
      i = j ∧ h ∉ browser_pool s.
Proof.
  intros Hrun.
  pose proof (pool_partition _ _ _ _ _ _ Hrun) as Hperm.
  split; [exact Hperm|]. split; [by eapply checked_out_bound|]. split.
  - apply Permutation_length in Hperm. rewrite length_app in Hperm.
    unfold _initialize_browser in Hperm.
    by rewrite length_fmap, length_seq in Hperm.
  - intros i j ti tj h Hi Hj Hhi Hhj. by eapply handle_exclusive.
Qed.

Lemma pool_invariant_witness :
  ∃ s outs,
    run (startup 1 false ∅) two_jobs_run = Some (s, outs)
    ∧ browser_pool s ++ owners s ≡ₚ [1%nat].
Proof.
  do 2 eexists. split; [vm_compute; reflexivity|].
  refine (proj1 (pool_invariant 1 false ∅ two_jobs_run _ _ _)).
  vm_compute. reflexivity.
Defined.

Lemma lost_handle_never_returns_witness :
  ∃ s' outs',
    run (startup 1 true ∅)
      (malformed_proxy_run ++ [GetRecaptcha example_request "U" None])%list
    = Some (s', outs')
    ∧ 1%nat ∉ browser_pool s'.
Proof.
  do 2 eexists. split; [vm_compute; reflexivity|].
  eapply (lost_handle_never_returns 1 true ∅ malformed_proxy_run
            [GetRecaptcha example_request "U" None] _ _ _ _ 0
            {| task_id := "T"; url := "https://example.test"; sitekey := "abc123";
               action := None; min_score := None; invisible := None;
               enterprise := None; data_s := None;
               at_ := SetupRaised (ValueError "Invalid proxy format") 1%nat |}).
  - vm_compute. reflexivity.
  - reflexivity.
  - reflexivity.
  - vm_compute. reflexivity.
Defined.

Lemma worker_writes_own_key_only_witness :
  ∃ s s',
    run (startup 1 false {[ "old" := solved_entry "tok" 10 ]})
      [GetRecaptcha example_request "T" None; Resume 0 (WGet None 0);
       Resume 0 (WNewContext (Returns ())); Resume 0 (WNewPage (Returns ()) 0)]
    = Some (s, [(TaskJson "T", 202)])
    ∧ step s (Resume 0 (WRoute (Raises (BrowserError "net")) 50)) = Some (s', None)
    ∧ results s' !! "old" = results s !! "old".
Proof.
  do 2 eexists. split; [vm_compute; reflexivity|].
  split; [vm_compute; reflexivity|].
  eapply (worker_writes_own_key_only _ _ 0
            (WRoute (Raises (BrowserError "net")) 50) None
            {| task_id := "T"; url := "https://example.test"; sitekey := "abc123";
               action := None; min_score := None; invisible := None;
               enterprise := None; data_s := None;
               at_ := AwaitRoute 1%nat 0 "https://example.test/" |} "old").
  - vm_compute. reflexivity.
  - reflexivity.
  - discriminate.
Defined.

Lemma outcome_is_written_once_witness :
  ∃ s s' outs outs',
    run (startup 1 false ∅)
      [GetRecaptcha example_request "T" None; Resume 0 (WGet None 0);
       Resume 0 (WNewContext (Returns ())); Resume 0 (WNewPage (Returns ()) 0);
       Resume 0 (WRoute (Raises (BrowserError "net")) 50)]
    = Some (s, outs)
    ∧ run s [Resume 0 (WClose (Returns ()));
             GetRecaptcha example_request "U" None;
             Resume 1 (WGet None 0)] = Some (s', outs')
    ∧ results s' !! "T" = results s !! "T".
Proof.
  do 4 eexists. split; [vm_compute; reflexivity|].
  split; [vm_compute; reflexivity|].
  eapply (outcome_is_written_once 1 false ∅
            [GetRecaptcha example_request "T" None; Resume 0 (WGet None 0);
             Resume 0 (WNewContext (Returns ())); Resume 0 (WNewPage (Returns ()) 0);
             Resume 0 (WRoute (Raises (BrowserError "net")) 50)]
            [Resume 0 (WClose (Returns ()));
             GetRecaptcha example_request "U" None;
             Resume 1 (WGet None 0)] _ _ _ _ 0
            {| task_id := "T"; url := "https://example.test"; sitekey := "abc123";
               action := None; min_score := None; invisible := None;
               enterprise := None; data_s := None;
               at_ := AwaitClose 1%nat |}).
  - vm_compute. reflexivity.
  - vm_compute. reflexivity.
  - vm_compute. reflexivity.
  - reflexivity.
  - reflexivity.
Defined.

Lemma get_blocks_iff_all_handles_held_witness :
  ∃ s outs,
    run (startup 1 false ∅) two_jobs_run = Some (s, outs)
    ∧ ∀ w, step s (Resume 1 w) = None.
Proof.
  do 2 eexists. split; [vm_compute; reflexivity|].
  refine (proj1 (get_blocks_iff_all_handles_held 1 false ∅ two_jobs_run _ _ 1
                   {| task_id := "U"; url := "https://example.test";
                      sitekey := "abc123";
                      action := None; min_score := None; invisible := None;
                      enterprise := None; data_s := None; at_ := AwaitGet |}
                   None 0 _ _ _) _).
  - vm_compute. reflexivity.
  - reflexivity.
  - reflexivity.
  - reflexivity.
Defined.

Lemma file_written_only_on_success_witness :
  ∃ s outs,
    run (startup 1 false ∅) two_jobs_run = Some (s, outs)
    ∧ results_json s = NoFile.
Proof.
  do 2 eexists. split; [vm_compute; reflexivity|].
  refine (proj1 (file_written_only_on_success (startup 1 false ∅) _ two_jobs_run _ _ _)).
  - vm_compute. reflexivity.
  - reflexivity.
Defined.

Lemma failures_do_not_survive_restart_witness :
  ∃ s outs,
    run (startup 1 false ∅)
      [GetRecaptcha example_request "T" None; Resume 0 (WGet None 0);
       Resume 0 (WNewContext (Returns ())); Resume 0 (WNewPage (Returns ()) 0);
       Resume 0 (WRoute (Raises (BrowserError "net")) 50)]
    = Some (s, outs)
    ∧ results s !! "T" = Some (failed_entry 50)
    ∧ get_result (results (startup 1 false (_load_results (results_file_of s))))
        [("id", "T")]
      = (ErrorJson "error" "Invalid task ID/Request parameter", 400).
Proof.
  do 2 eexists. split; [vm_compute; reflexivity|].
  split; [vm_compute; reflexivity|].
  eapply (failures_do_not_survive_restart 1 false
            [GetRecaptcha example_request "T" None; Resume 0 (WGet None 0);
             Resume 0 (WNewContext (Returns ())); Resume 0 (WNewPage (Returns ()) 0);
             Resume 0 (WRoute (Raises (BrowserError "net")) 50)]).
  - vm_compute. reflexivity.
  - reflexivity.
Defined.

(** ** Proxy lines, by their colons *)

Lemma length_split (sep : ascii) (s : string) :
  length (Py.split sep s) = S (count_char sep s).
Proof.
  induction s as [|c s IH]; simpl; [done|].
  destruct (Ascii.eqb c sep); simpl; [by rewrite IH|].
  pose proof (split_nonempty sep s).
  destruct (Py.split sep s) as [|f fs]; [done|]. simpl in *. done.
Qed.

Lemma split_fields_no_sep (sep : ascii) (s f : string) :
  f ∈ Py.split sep s → count_char sep f = 0%nat.
Proof.
  revert f. induction s as [|c s IH]; simpl; intros f Hf.
  - by apply list_elem_of_singleton in Hf as ->.
  - destruct (Ascii.eqb c sep) eqn:E.
    + apply elem_of_cons in Hf as [->|Hf]; [done | by apply IH].
    + pose proof (split_nonempty sep s).
      destruct (Py.split sep s) as [|g gs]; [done|].
      apply elem_of_cons in Hf as [->|Hf].
      * simpl. rewrite E. simpl. apply IH. apply list_elem_of_here.
      * apply IH. by apply list_elem_of_further.
Qed.

(** X11.  Which proxy lines are accepted, read off the line itself: a line
    with exactly two colons is accepted as it stands, without credentials; a
    line with exactly four colons is accepted with a user name and a
    password; every other line (among them a five-field line whose password
    contains a colon) raises ValueError. *)
Theorem proxy_accepted_by_colon_count (proxy : string) :
  match proxy_config proxy with
  | Returns cfg =>
      (count_char ":" proxy = 2%nat
       ∧ cfg = {| proxy_server := proxy;
                  proxy_username := None; proxy_password := None |})
      ∨ (count_char ":" proxy = 4%nat
         ∧ is_Some (proxy_username cfg) ∧ is_Some (proxy_password cfg))
  | Raises e =>
      e = ValueError "Invalid proxy format"
      ∧ count_char ":" proxy ≠ 2%nat ∧ count_char ":" proxy ≠ 4%nat
  end.
Proof.
  pose proof (length_split ":" proxy) as Hlen. unfold proxy_config.
  destruct (Py.split ":" proxy) as [|a [|b [|c [|d [|e [|f l]]]]]];
    simpl in *; try (split; [done | lia]).
  - left. split; [lia | done].
  - right. split; [lia | eauto].
Qed.

(** X12.  Nothing of an accepted line with credentials is lost or
    reinterpreted: the line is [scheme:host:port:user:pass] for the very
    user name and password handed to the browser, the server is
    [scheme://host:port], and none of the five parts contains a colon. *)
Theorem proxy_credentials_are_the_last_two_fields
    (proxy : string) (cfg : proxy_settings) (user pass : string) :
  proxy_config proxy = Returns cfg →
  proxy_username cfg = Some user → proxy_password cfg = Some pass →
  ∃ scheme host port,
    proxy = scheme +:+ ":" +:+ host +:+ ":" +:+ port +:+ ":" +:+ user +:+ ":" +:+ pass
    ∧ proxy_server cfg = scheme +:+ "://" +:+ host +:+ ":" +:+ port
    ∧ Forall (λ part, count_char ":" part = 0%nat) [scheme; host; port; user; pass].
Proof.
  unfold proxy_config. intros Hcfg Hu Hp.
  pose proof (join_split ":" proxy) as Hjoin.
  pose proof (split_fields_no_sep ":" proxy) as Hno.
  destruct (Py.split ":" proxy) as [|a [|b [|c [|d [|e [|f l]]]]]];
    simplify_eq; simpl in *; simplify_eq.
  exists a, b, c. split; [|split; [done|]].
  - reflexivity.
  - repeat (apply Forall_cons; split; [apply Hno; set_solver|]).
    apply Forall_nil_2.
Qed.

Lemma proxy_credentials_are_the_last_two_fields_witness :
  ∃ scheme host port,
    "http:10.0.0.2:3128:bob:secret"
    = scheme +:+ ":" +:+ host +:+ ":" +:+ port +:+ ":" +:+ "bob" +:+ ":" +:+ "secret"
    ∧ "http://10.0.0.2:3128" = scheme +:+ "://" +:+ host +:+ ":" +:+ port
    ∧ Forall (λ part, count_char ":" part = 0%nat)
        [scheme; host; port; "bob"; "secret"].
Proof.
  exact (proxy_credentials_are_the_last_two_fields
           "http:10.0.0.2:3128:bob:secret"
           {| proxy_server := "http://10.0.0.2:3128";
              proxy_username := Some "bob"; proxy_password := Some "secret" |}
           "bob" "secret" eq_refl eq_refl eq_refl).
Defined.

(** ** The staged URL *)

Lemma endswith_append (s suffix : string) : Py.endswith (s +:+ suffix) suffix = true.
Proof.
  induction s as [|c s IH]; simpl.
  - destruct suffix; simpl; [done|]. by rewrite Ascii.eqb_refl, String.eqb_refl.
  - rewrite IH. apply orb_true_r.
Qed.

Lemma resume_staged_url (s s' : api_server) (t : task) (w : wake) (p : phase) :
  resume s t w = Some (s', p) →
  (∀ u, staged_url (at_ t) = Some u → u = url_with_slash (url t)) →
  ∀ u, staged_url p = Some u → u = url_with_slash (url t).
Proof.
  intros H Hinv u Hu. unfold resume, except_clause, _save_results in H.
  destruct (at_ t) eqn:Hat, w; simpl in H; try done;
    repeat match type of H with
           | context [match ?x with _ => _ end] => destruct x eqn:?
           end;
    simplify_eq; simpl in Hu; simplify_eq; try reflexivity;
    first [ unfold url_with_slash;
            match goal with E : negb _ = _ |- _ => by rewrite E end
          | by apply Hinv ].
Qed.

Lemma step_staged_url (s s' : api_server) (ev : event) (o : option response) :
  step s ev = Some (s', o) →
  (∀ t u, t ∈ tasks s → staged_url (at_ t) = Some u → u = url_with_slash (url t)) →
  ∀ t u, t ∈ tasks s' → staged_url (at_ t) = Some u → u = url_with_slash (url t).
Proof.
  destruct ev as [args uuid4 ct | args | i w]; simpl; intros H Hinv t' u Ht' Hu.
  - unfold process_recaptcha in H.
    destruct (negb _ || negb _); [simplify_eq; by apply Hinv|].
    destruct ct; simplify_eq; simpl in Ht'; [by apply Hinv|].
    apply elem_of_app in Ht' as [Ht'|Ht']; [by apply Hinv|].
    by apply list_elem_of_singleton in Ht' as ->.
  - simplify_eq. by apply Hinv.
  - destruct (tasks s !! i) as [t|] eqn:Ht; simpl in H; [|done].
    destruct (resume s t w) as [[s1 p]|] eqn:Hr; simpl in H; [|done].
    simplify_eq. simpl in Ht'.
    rewrite (proj1 (resume_frame _ _ _ _ _ Hr)) in Ht'.
    apply list_elem_of_lookup in Ht' as [j Hj].
    apply list_lookup_insert_Some in Hj as [(-> & <- & _)|(Hne & Hj)].
    + simpl in *. eapply (resume_staged_url _ _ _ _ _ Hr); [|done].
      intros u' Hu'. eapply Hinv; [|done]. by eapply list_elem_of_lookup_2.
    + eapply Hinv; [|done]. by eapply list_elem_of_lookup_2.
Qed.

(** X13.  The URL a worker routes and navigates to always ends with a
    slash: in every state reached from startup, the URL a worker has passed
    to [page.route] or to [page.goto] is the request's [url] when that ends
    with a slash already, and the [url] with one slash appended otherwise;
    normalising it again changes nothing. *)
Theorem staged_url_ends_with_slash
    (n : nat) (proxy : bool) (loaded : gmap string result)
    (evs : list event) (s : api_server) (outs : list response)
    (t : task) (u : string) :
  run (startup n proxy loaded) evs = Some (s, outs) →
  t ∈ tasks s → staged_url (at_ t) = Some u →
  u = url_with_slash (url t)
  ∧ Py.endswith u "/" = true
  ∧ (Py.endswith (url t) "/" = true → u = url t)
  ∧ (Py.endswith (url t) "/" = false → u = url t +:+ "/")
  ∧ url_with_slash u = u.
Proof.
  intros Hrun Ht Hu.
  assert (u = url_with_slash (url t)) as ->.
  { assert (∀ s0 outs0, run s0 evs = Some (s, outs0) →
              (∀ t u, t ∈ tasks s0 → staged_url (at_ t) = Some u →
                      u = url_with_slash (url t)) →
              ∀ t u, t ∈ tasks s → staged_url (at_ t) = Some u →
                     u = url_with_slash (url t)) as Hgen.
    { clear. induction evs as [|ev evs IH]; simpl; intros s0 outs0 H Hinv.
      - by simplify_eq.
      - destruct (step s0 ev) as [[s1 o]|] eqn:Hs; simpl in H; [|done].
        destruct (run s1 evs) as [[s2 outs2]|] eqn:Hr; simpl in H; [|done].
        simplify_eq. eapply IH; [done|]. by eapply step_staged_url. }
    eapply Hgen; [exact Hrun | | exact Ht | exact Hu].
    simpl. intros ? ? []%elem_of_nil. }
  assert (Py.endswith (url_with_slash (url t)) "/" = true) as Hend.
  { unfold url_with_slash. destruct (Py.endswith (url t) "/") eqn:E; simpl;
      [done | apply endswith_append]. }
  split; [done|]. split; [exact Hend|]. split; [|split].
  - unfold url_with_slash. by intros ->.
  - unfold url_with_slash. by intros ->.
  - unfold url_with_slash at 1. by rewrite Hend.
Qed.

Lemma staged_url_ends_with_slash_witness :
  ∃ s outs,
    run (startup 1 false ∅)
      (two_jobs_run ++ [Resume 0 (WRoute (Returns ()) 10)])%list = Some (s, outs)
    ∧ at_ <$> tasks s !! 0%nat = Some (AwaitGoto 1%nat 0 "https://example.test/")
    ∧ Py.endswith "https://example.test/" "/" = true.
Proof.
  do 2 eexists. split; [vm_compute; reflexivity|]. split; [reflexivity|].
  refine (proj1 (proj2 (staged_url_ends_with_slash 1 false ∅
            (two_jobs_run ++ [Resume 0 (WRoute (Returns ()) 10)])%list _ _
            {| task_id := "T"; url := "https://example.test"; sitekey := "abc123";
               action := None; min_score := None; invisible := None;
               enterprise := None; data_s := None;
               at_ := AwaitGoto 1%nat 0 "https://example.test/" |}
            "https://example.test/" _ _ _))).
  - vm_compute. reflexivity.
  - apply list_elem_of_here.
  - reflexivity.
Defined.

(** ** Startup *)

Lemma launch_browsers_all_return
    (browser_type : string) (launch : nat → outcome unit) (i count : nat) :
  browser_type ∈ browser_types → (∀ k, launch k = Returns ()) →
  launch_browsers browser_type launch i count = inr (S <$> seq i count).
Proof.
  intros Hin Hl. revert i. induction count as [|count IH]; intros i; simpl; [done|].
  assert (bool_decide (browser_type ∈ ["chromium"; "chrome"; "msedge"])
          || String.eqb browser_type "camoufox" = true) as ->.
  { unfold browser_types in Hin.
    repeat (apply elem_of_cons in Hin as [->|Hin]; [done|]).
    by apply elem_of_nil in Hin. }
  by rewrite Hl, IH.
Qed.

(** X14.  [main] guards [_initialize_browser]: for every browser type that
    [main] lets through, and whatever the pool size, startup with launches
    that all return binds [browser] in every iteration and fills the queue
    with the handles [1 .. thread_count] in order (none for a
    [thread_count] that is not positive). *)
Theorem main_guards_startup
    (browser_type : string) (headless : bool) (useragent : option string)
    (thread_count : Z) (launch : nat → outcome unit) :
  main browser_type headless useragent = RunApp →
  (∀ k, launch k = Returns ()) →
  _startup browser_type thread_count (Returns ()) launch
  = inr (_initialize_browser (Z.to_nat thread_count))
  ∧ (thread_count ≤ 0 →
     _startup browser_type thread_count (Returns ()) launch = inr []).
Proof.
  intros Hmain Hl.
  assert (browser_type ∈ browser_types) as Hin.
  { unfold main in Hmain. destruct (bool_decide _) eqn:E; [|done].
    by apply bool_decide_eq_true in E. }
  assert (_startup browser_type thread_count (Returns ()) launch
          = inr (_initialize_browser (Z.to_nat thread_count))) as Heq.
  { unfold _startup, _initialize_browser.
    destruct (bool_decide _); by apply launch_browsers_all_return. }
  split; [exact Heq|]. intros Hle. rewrite Heq.
  by rewrite Z2Nat.nonpos.
Qed.

Lemma main_guards_startup_witness :
  _startup "camoufox" 2 (Returns ()) (λ _, Returns ()) = inr [1%nat; 2%nat].
Proof.
  exact (proj1 (main_guards_startup "camoufox" true None 2 (λ _, Returns ())
                  eq_refl (λ _, eq_refl))).
Defined.

(** X15.  A browser type outside the four known ones, reaching
    [_initialize_browser] without [main]'s check (through [create_app]):
    with a positive pool size startup fails at line 139 on the unbound
    variable [browser], before any launch; with a pool size that is not
    positive it succeeds with an empty queue. *)
Theorem unknown_browser_type_fails_startup
    (browser_type : string) (thread_count : Z)
    (playwright_start : outcome unit) (launch : nat → outcome unit) :
  browser_type ∉ browser_types →
  main browser_type false None = UnknownBrowserType
  ∧ _startup browser_type thread_count playwright_start launch
    = if 0 <? thread_count then inl (UnboundLocalError "browser") else inr [].
Proof.
  intros Hnot. split.
  - unfold main. by rewrite bool_decide_eq_false_2.
  - assert (bool_decide (browser_type ∈ ["chromium"; "chrome"; "msedge"]) = false) as H1.
    { apply bool_decide_eq_false_2. intros Hin. apply Hnot.
      unfold browser_types.
      repeat (apply elem_of_cons in Hin as [->|Hin]; [repeat constructor|]).
      by apply elem_of_nil in Hin. }
    assert (String.eqb browser_type "camoufox" = false) as H2.
    { apply String.eqb_neq. intros ->. apply Hnot.
      unfold browser_types. repeat constructor. }
    unfold _startup. rewrite H1.
    destruct (0 <? thread_count) eqn:E.
    + apply Z.ltb_lt in E.
      destruct (Z.to_nat thread_count) as [|k] eqn:Hk; [lia|].
      simpl. by rewrite H1, H2.
    + apply Z.ltb_ge in E. by rewrite Z2Nat.nonpos.
Qed.

Lemma unknown_browser_type_fails_startup_witness :
  _startup "firefox" 3 (Returns ()) (λ _, Returns ())
  = inl (UnboundLocalError "browser").
Proof.
  refine (proj2 (unknown_browser_type_fails_startup "firefox" 3 (Returns ())
                   (λ _, Returns ()) _)).
  unfold browser_types. intros Hin.
  repeat (apply elem_of_cons in Hin as [Hin|Hin]; [discriminate Hin|]).
  by apply elem_of_nil in Hin.
Defined.

Lemma launch_browsers_first_failure
    (browser_type : string) (launch : nat → outcome unit) (e : exn)
    (i j count : nat) :
  browser_type ∈ browser_types →
  (∀ k, (i ≤ k < i + j)%nat → launch k = Returns ()) →
  launch (i + j)%nat = Raises e → (j < count)%nat →
  launch_browsers browser_type launch i count = inl (LaunchRaised e).
Proof.
  intros Hin. revert i count. induction j as [|j IH]; intros i count Hok Hfail Hlt;
    (destruct count as [|count]; [lia|]); simpl;
    (assert (bool_decide (browser_type ∈ ["chromium"; "chrome"; "msedge"])
             || String.eqb browser_type "camoufox" = true) as ->;
     [unfold browser_types in Hin;
      repeat (apply elem_of_cons in Hin as [->|Hin]; [done|]);
      by apply elem_of_nil in Hin |]).
  - rewrite Nat.add_0_r in Hfail. by rewrite Hfail.
  - rewrite Hok by lia.
    rewrite (IH (S i) count); [done | | | lia].
    + intros k Hk. apply Hok. lia.
    + by replace (S i + j)%nat with (i + S j)%nat by lia.
Qed.

(** X16.  A failed launch is fatal for startup: for a known browser type,
    if the launch of iteration [j] (counting from 0) raises after the
    earlier ones returned, and [j] is below the pool size, startup fails
    with that exception and no queue is handed to the server, however many
    browsers were already launched. *)
Theorem failed_launch_aborts_startup
    (browser_type : string) (thread_count : Z)
    (launch : nat → outcome unit) (e : exn) (j : nat) :
  browser_type ∈ browser_types →
  (∀ k, (k < j)%nat → launch k = Returns ()) →
  launch j = Raises e → Z.of_nat j < thread_count →
  _startup browser_type thread_count (Returns ()) launch = inl (LaunchRaised e).
Proof.
  intros Hin Hok Hfail Hlt. unfold _startup.
  assert (launch_browsers browser_type launch 0 (Z.to_nat thread_count)
          = inl (LaunchRaised e)) as ->.
  { apply (launch_browsers_first_failure _ _ _ 0 j); [done | | done | lia].
    intros k Hk. apply Hok. lia. }
  by destruct (bool_decide _).
Qed.

Lemma failed_launch_aborts_startup_witness :
  _startup "chrome" 3 (Returns ())
    (λ k, if (k =? 1)%nat then Raises (BrowserError "crash") else Returns ())
  = inl (LaunchRaised (BrowserError "crash")).
Proof.
  refine (failed_launch_aborts_startup "chrome" 3 _ (BrowserError "crash") 1 _ _ _ _).
  - unfold browser_types. repeat constructor.
  - intros k Hk. by destruct k as [|[|k]]; [| lia | lia].
  - reflexivity.
  - reflexivity.
Defined.


(** ** Admissions and their workers *)

Lemma step_spawns_on_202 (s s' : api_server) (ev : event) (o : option response) :
  step s ev = Some (s', o) →
  length (tasks s')
  = (length (tasks s) + length (filter (λ r, accepted r = true) (from_option (λ r, [r]) [] o)))%nat.
Proof.
  destruct ev as [args uuid4 ct | args | i w]; simpl; intros H.
  - unfold process_recaptcha in H.
    destruct (negb _ || negb _); [simplify_eq; simpl; lia|].
    destruct ct; simplify_eq; simpl; [lia|]. by rewrite length_app.
  - simplify_eq. simpl. unfold get_result.
    destruct (negb _); simpl; [lia|].
    destruct (_ ≫= _); simpl; [|lia]. destruct (py_in _ _); simpl; lia.
  - destruct (tasks s !! i) as [t|] eqn:Ht; simpl in H; [|done].
    destruct (resume s t w) as [[s1 p]|] eqn:Hr; simpl in H; [|done].
    simplify_eq. simpl. rewrite length_insert.
    rewrite (proj1 (resume_frame _ _ _ _ _ Hr)). lia.
Qed.

(** X18.  One worker per accepted request: after any run from startup the
    number of spawned tasks is the number of responses with status 202;
    rejected requests (400), failed admissions (500) and [GET /result]
    spawn nothing. *)
Theorem one_task_per_202
    (n : nat) (proxy : bool) (loaded : gmap string result)
    (evs : list event) (s : api_server) (outs : list response) :
  run (startup n proxy loaded) evs = Some (s, outs) →
  length (tasks s) = length (filter (λ r, accepted r = true) outs).
Proof.
  assert (∀ s0 outs, run s0 evs = Some (s, outs) →
            length (tasks s)
            = (length (tasks s0)
               + length (filter (λ r, accepted r = true) outs))%nat) as Hgen.
  { induction evs as [|ev evs IH]; simpl; intros s0 outs0 H.
    - simplify_eq. simpl. lia.
    - destruct (step s0 ev) as [[s1 o]|] eqn:Hs; simpl in H; [|done].
      destruct (run s1 evs) as [[s2 outs2]|] eqn:Hr; simpl in H; [|done].
      simplify_eq. rewrite (IH _ _ Hr), (step_spawns_on_202 _ _ _ _ Hs).
      rewrite filter_app, length_app. lia. }
  intros Hrun. by rewrite (Hgen _ _ Hrun).
Qed.

Lemma one_task_per_202_witness :
  ∃ s outs,
    run (startup 1 false ∅)
      [GetRecaptcha example_request "T" None;
       GetRecaptcha [("url", "https://example.test")] "V" None;
       GetResult [("id", "T")];
       GetRecaptcha example_request "U" (Some "no running event loop")]
    = Some (s, outs)
    ∧ length (tasks s) = 1%nat.
Proof.
  do 2 eexists. split; [vm_compute; reflexivity|].
  etrans.
  - refine (one_task_per_202 1 false ∅
              [GetRecaptcha example_request "T" None;
               GetRecaptcha [("url", "https://example.test")] "V" None;
               GetResult [("id", "T")];
               GetRecaptcha example_request "U" (Some "no running event loop")]
              _ _ _).
    vm_compute. reflexivity.
  - reflexivity.
Defined.

Lemma step_202_registers (s s' : api_server) (ev : event) (r : response) (id : string) :
  step s ev = Some (s', Some r) → r = (TaskJson id, 202) →
  is_Some (results s' !! id).
Proof.
  destruct ev as [args uuid4 ct | args | i w]; simpl; intros H ->.
  - unfold process_recaptcha in H.
    destruct (negb _ || negb _); [by simplify_eq|].
    destruct ct; simplify_eq. simpl. rewrite lookup_insert_eq. eauto.
  - simplify_eq. unfold get_result in *.
    destruct (negb _); [done|]. by destruct (_ ≫= _).
  - destruct (tasks s !! i) as [t|]; simpl in H; [|done].
    by destruct (resume s t w) as [[s1 p]|].
Qed.

(** X19.  An identifier handed out with a 202 is known from then on: in
    every later state of the run it is a key of [self.results], so
    [GET /result] for it never answers 400 (the identifier being, as
    [uuid4] makes it, not empty). *)
Theorem admitted_id_is_always_known
    (s s' : api_server) (evs : list event) (outs : list response) (id : string) :
  run s evs = Some (s', outs) → (TaskJson id, 202) ∈ outs → id ≠ "" →
  is_Some (results s' !! id)
  ∧ ∃ r code, get_result (results s') [("id", id)] = (Stored r, code)
              ∧ results s' !! id = Some r.
Proof.
  intros Hrun Hin Hne.
  assert (is_Some (results s' !! id)) as [r Hr].
  { revert s outs Hrun Hin. induction evs as [|ev evs IH]; simpl; intros s outs H Hin.
    - simplify_eq. by apply elem_of_nil in Hin.
    - destruct (step s ev) as [[s1 o]|] eqn:Hs; simpl in H; [|done].
      destruct (run s1 evs) as [[s2 outs2]|] eqn:Hr; simpl in H; [|done].
      simplify_eq. apply elem_of_app in Hin as [Hin|Hin]; [|by eapply IH].
      destruct o as [r|]; simpl in Hin; [|by apply elem_of_nil in Hin].
      apply list_elem_of_singleton in Hin.
      pose proof (step_202_registers _ _ _ _ _ Hs (eq_sym Hin)) as Hsome.
      by eapply run_results_grow. }
  split; [eauto|]. exists r. eexists. split; [|exact Hr].
  by apply (get_result_known _ _ id).
Qed.

Lemma admitted_id_is_always_known_witness :
  ∃ s outs,
    run (startup 1 false ∅) two_jobs_run = Some (s, outs)
    ∧ is_Some (results s !! "U").
Proof.
  do 2 eexists. split; [vm_compute; reflexivity|].
  refine (proj1 (admitted_id_is_always_known (startup 1 false ∅) _ two_jobs_run
                   _ "U" _ _ _)).
  - vm_compute. reflexivity.
  - apply list_elem_of_further, list_elem_of_here.
  - discriminate.
Defined.
